(** * configor: loading a configuration struct from files, environment
      variables and struct tags

    A shallow embedding of [configor.go].  Go strings are [string]s, the
    reflected Go types of a configuration are the inductive [ty], and a
    configuration value of type [t] inhabits [value t].  In-place mutation
    through [reflect] and through the decoders is written as explicit state
    passing: every operation that the source runs for its effect on the
    configuration returns the configuration it leaves behind together with
    the Go [error] ([None] is [nil]).

    What the package takes from outside is kept apart from its own code:
    the codecs and [strings.ToUpper] are the members of the class
    [Libraries], and the environment and the file system are a record [OS]
    that is read during one call.  The fields of a configuration are
    exported, its type is finite, and its pointers do not alias. *)

From Stdlib Require Import String Ascii List Bool Arith ZArith.
From Stdlib Require Import DecimalString Lia.
Import ListNotations.

Local Open Scope string_scope.
Local Open Scope list_scope.

(** ** Strings: the functions of [strings], [path], [regexp] and [fmt]
       that the source calls *)

Module GoStrings.

(** [strings.HasPrefix]. *)
Definition HasPrefix (s p : string) : bool := String.prefix p s.

(** [strings.HasSuffix(s, suffix)]:
    [len(s) >= len(suffix) && s[len(s)-len(suffix):] == suffix]. *)
Definition HasSuffix (s suffix : string) : bool :=
  Nat.leb (String.length suffix) (String.length s)
  && String.eqb
       (substring (String.length s - String.length suffix)
                  (String.length suffix) s)
       suffix.

(** [strings.TrimSuffix(s, suffix)]. *)
Definition TrimSuffix (s suffix : string) : string :=
  if HasSuffix s suffix
  then substring 0 (String.length s - String.length suffix) s
  else s.

(** [strings.Join(elems, sep)]. *)
Definition Join (elems : list string) (sep : string) : string :=
  String.concat sep elems.

(** [strings.Contains]; it is also what [regexp.MatchString] computes for a
    pattern without metacharacters, such as ["/_test/"]. *)
Fixpoint Contains (s substr : string) : bool :=
  HasPrefix s substr
  || match s with
     | EmptyString => false
     | String _ s' => Contains s' substr
     end.

(** The loop of [path.Ext], scanning the path from its last byte down to
    the last slash; [seen] is the part already scanned, in path order. *)
Fixpoint ext_scan (rev_path seen : list ascii) : list ascii :=
  match rev_path with
  | [] => []
  | c :: r =>
      if Ascii.eqb c "/" then []
      else if Ascii.eqb c "." then c :: seen
      else ext_scan r (c :: seen)
  end.

(** [path.Ext]. *)
Definition Ext (path : string) : string :=
  string_of_list_ascii (ext_scan (rev (list_ascii_of_string path)) []).

(** [fmt.Sprintf("%d", i)] for a slice index. *)
Definition Itoa (i : nat) : string := NilEmpty.string_of_uint (Nat.to_uint i).

(** [strings.ToUpper] on ASCII letters; the other bytes are kept. *)
Definition upper_ascii (c : ascii) : ascii :=
  let n := nat_of_ascii c in
  if Nat.leb 97 n && Nat.leb n 122 then ascii_of_nat (n - 32) else c.

Fixpoint ToUpperASCII (s : string) : string :=
  match s with
  | EmptyString => EmptyString
  | String c s' => String (upper_ascii c) (ToUpperASCII s')
  end.

(** The line feed that Go writes ["\n"]. *)
Definition LF : string := String (ascii_of_nat 10) EmptyString.

End GoStrings.
Import GoStrings.

(** ** Errors *)

(** A Go [error] value, by where it was made: by [errors.New] or
    [fmt.Errorf] in this package, or by a library ([yaml], [json], [toml],
    [ioutil]) that handed it back.  Go compares errors by identity, so an
    error of the second kind is never one of the first. *)
Inductive error : Type :=
| ErrNew (msg : string)
| ErrLib (msg : string).

(** The error of a library call, as this package returns it. *)
Definition fromLib {A : Type} (r : A * option string) : A * option error :=
  (fst r, option_map ErrLib (snd r)).

(** ** Reflected types and values *)

(** [reflect.StructField] as far as [processTags] reads it: the field name
    and the three keys of its tag ([Tag.Get] returns [""] for a key that is
    absent). *)
Record StructField : Type := mkField {
  Name : string;
  tag_env : string;
  tag_default : string;
  tag_required : string
}.

(** The kinds of field the source distinguishes: structs, pointers, slices
    and the rest, of which integers, strings, booleans and channels stand
    here. *)
Inductive ty : Type :=
| TInt
| TString
| TBool
| TChan
| TStruct (fs : fields)
| TPtr (elem : ty)
| TSlice (elem : ty)
with fields : Type :=
| FNil
| FCons (f : StructField) (t : ty) (rest : fields).

(** The values of a type.  A pointer is [None] when nil; a slice is [None]
    when nil, which [reflect.DeepEqual] tells apart from an empty one; a
    channel is [None] when nil and otherwise known by its identity.  The
    struct values are trees: two pointers never alias. *)
Fixpoint value (t : ty) : Type :=
  match t with
  | TInt => Z
  | TString => string
  | TBool => bool
  | TChan => option nat
  | TStruct fs => values fs
  | TPtr elem => option (value elem)
  | TSlice elem => option (list (value elem))
  end
with values (fs : fields) : Type :=
  match fs with
  | FNil => unit
  | FCons _ t rest => (value t * values rest)%type
  end.

(** [reflect.Zero(t)]. *)
Fixpoint Zero (t : ty) : value t :=
  match t with
  | TInt => 0%Z
  | TString => ""
  | TBool => false
  | TChan => None
  | TStruct fs => Zeros fs
  | TPtr _ => None
  | TSlice _ => None
  end
with Zeros (fs : fields) : values fs :=
  match fs with
  | FNil => tt
  | FCons _ t rest => (Zero t, Zeros rest)
  end.

(** [reflect.DeepEqual] on two values of one type. *)
Fixpoint DeepEqual (t : ty) : value t -> value t -> bool :=
  match t with
  | TInt => Z.eqb
  | TString => String.eqb
  | TBool => Bool.eqb
  | TChan => fun a b =>
      match a, b with
      | None, None => true
      | Some x, Some y => Nat.eqb x y
      | _, _ => false
      end
  | TStruct fs => DeepEquals fs
  | TPtr elem => fun a b =>
      match a, b with
      | None, None => true
      | Some x, Some y => DeepEqual elem x y
      | _, _ => false
      end
  | TSlice elem => fun a b =>
      match a, b with
      | None, None => true
      | Some xs, Some ys =>
          (fix all2 (xs ys : list (value elem)) : bool :=
             match xs, ys with
             | [], [] => true
             | x :: xs', y :: ys' => DeepEqual elem x y && all2 xs' ys'
             | _, _ => false
             end) xs ys
      | _, _ => false
      end
  end
with DeepEquals (fs : fields) : values fs -> values fs -> bool :=
  match fs with
  | FNil => fun _ _ => true
  | FCons _ t rest => fun a b =>
      DeepEqual t (fst a) (fst b) && DeepEquals rest (snd a) (snd b)
  end.

(** ** The collaborators: codecs and the operating system *)

(** The library functions whose behaviour the source relies on but does not
    define.  An unmarshaller writes into the value it is given and may have
    written part of it when it fails, so it returns the value it leaves
    behind next to the message of its error, if any; a marshaller returns
    [([]byte, error)]. *)
Class Libraries : Type := {
  yaml_Unmarshal : forall t : ty, string -> value t -> value t * option string;
  json_Unmarshal : forall t : ty, string -> value t -> value t * option string;
  toml_Unmarshal : forall t : ty, string -> value t -> value t * option string;
  yaml_Marshal : forall t : ty, value t -> string * option string;
  json_Marshal : forall t : ty, value t -> string * option string;
  ToUpper : string -> string
}.

(** [os.FileInfo], as far as [Mode().IsRegular()]. *)
Record FileInfo : Type := mkFileInfo { IsRegular : bool }.

(** What the process sees of the operating system during one call:
    [os.Getenv] (unset variables read as [""]), [os.Args[0]], [os.Stat]
    ([None] when it returns an error), [ioutil.ReadFile] and the error
    [ioutil.WriteFile] would return. *)
Record OS : Type := mkOS {
  Getenv : string -> string;
  Args0 : string;
  Stat : string -> option FileInfo;
  ReadFile : string -> string + string;
  WriteFile : string -> string -> option string
}.

(** [err == nil && fileInfo.Mode().IsRegular()] after [os.Stat(file)]. *)
Definition isRegularFile (os : OS) (file : string) : bool :=
  match Stat os file with
  | Some fileInfo => IsRegular fileInfo
  | None => false
  end.

(** ** Environment name and file resolution *)

Definition ENV (os : OS) : string :=
  let env := Getenv os "CONFIGOR_ENV" in
  if negb (env =? "") then env
  else if Contains (Args0 os) "/_test/" then "test"
  else "development".

(** The file name that [getConfigurationWithENV] builds before it looks for
    the file. *)
Definition envFileName (file env : string) : string :=
  let extname := Ext file in
  if extname =? "" then file ++ "." ++ env
  else TrimSuffix file extname ++ "." ++ env ++ extname.

Definition getConfigurationWithENV (os : OS) (file env : string)
  : string + error :=
  let envFile := envFileName file env in
  if isRegularFile os envFile then inl envFile
  else inr (ErrNew ("failed to find file " ++ file)).

(** The error of line 72. *)
Definition notFound (file : string) : error :=
  ErrNew ("Failed to find configuration " ++ file ++ LF).

(** One iteration of the loop of [getConfigurations] on [file], with the
    [results] collected so far. *)
Definition getConfigurations_body (os : OS) (env file : string)
    (results : list string) : list string + error :=
  let foundFile := false in
  let '(foundFile, results) :=
    if isRegularFile os file then (true, results ++ [file])
    else (foundFile, results) in
  let '(foundFile, results) :=
    match getConfigurationWithENV os file env with
    | inl file' => (true, results ++ [file'])
    | inr _ => (foundFile, results)
    end in
  if negb foundFile then
    match getConfigurationWithENV os file "example" with
    | inl example => inl (results ++ [example])
    | inr _ => inr (notFound file)
    end
  else inl results.

(** The loop [for i := len(files) - 1; i >= 0; i--], run on the files still
    to visit, last one first. *)
Fixpoint getConfigurations_loop (os : OS) (env : string)
    (rev_files : list string) (results : list string) : list string + error :=
  match rev_files with
  | [] => inl results
  | file :: rest =>
      match getConfigurations_body os env file results with
      | inl results' => getConfigurations_loop os env rest results'
      | inr err => inr err
      end
  end.

Definition getConfigurations (os : OS) (files : list string)
  : list string + error :=
  getConfigurations_loop os (ENV os) (rev files) [].

Definition getPrefix (os : OS) : string :=
  let prefix := Getenv os "CONFIGOR_ENV_PREFIX" in
  if negb (prefix =? "") then prefix else "configor".

(** ** Save and load *)

Section Configor.

Context {L : Libraries}.

(** [Save] returns the writes it asked [ioutil.WriteFile] for, as pairs of a
    file name and its contents, next to its error. *)
Definition Save (t : ty) (os : OS) (config : value t) (filename : string)
  : list (string * string) * option error :=
  let encoded :=
    if HasSuffix filename ".yaml" || HasSuffix filename ".yml"
    then Some (yaml_Marshal t config)
    else if HasSuffix filename ".json"
    then Some (json_Marshal t config)
    else None in
  match encoded with
  | None => ([], Some (ErrNew "Unknown file type"))
  | Some (js, err) =>
      match err with
      | Some _ => ([], None)
      | None => ([(filename, js)], option_map ErrLib (WriteFile os filename js))
      end
  end.

Definition load (t : ty) (os : OS) (config : value t) (file : string)
  : value t * option error :=
  match ReadFile os file with
  | inr err => (config, Some (ErrLib err))
  | inl data =>
      if HasSuffix file ".yaml" || HasSuffix file ".yml"
      then fromLib (yaml_Unmarshal t data config)
      else if HasSuffix file ".toml"
      then fromLib (toml_Unmarshal t data config)
      else if HasSuffix file ".json"
      then fromLib (json_Unmarshal t data config)
      else
        let (config, err) := toml_Unmarshal t data config in
        match err with
        | None => (config, None)
        | Some _ =>
            let (config, err) := json_Unmarshal t data config in
            match err with
            | None => (config, None)
            | Some _ =>
                let (config, err) := yaml_Unmarshal t data config in
                match err with
                | None => (config, None)
                | Some _ => (config, Some (ErrNew "failed to decode config"))
                end
            end
        end
  end.

(** ** The binding engine *)

(** Lines 139-142: the name of the environment variable of a field. *)
Definition envNameOf (f : StructField) (prefix : list string) : string :=
  let envName := tag_env f in
  if envName =? "" then ToUpper (Join (prefix ++ [Name f]) "_")
  else envName.

(** Lines 144-150: read the configuration of a field from the environment. *)
Definition overrideStep (os : OS) (f : StructField) (t : ty)
    (prefix : list string) (field : value t) : value t * option error :=
  let envName := envNameOf f prefix in
  if negb (envName =? "") then
    let value := Getenv os envName in
    if negb (value =? "") then fromLib (yaml_Unmarshal t value field)
    else (field, None)
  else (field, None).

Definition isBlank (t : ty) (field : value t) : bool :=
  DeepEqual t field (Zero t).

(** Lines 152-162: the default of a blank field, or the error of a blank
    required one. *)
Definition defaultStep (f : StructField) (t : ty) (field : value t)
  : value t * option error :=
  if isBlank t field then
    if negb (tag_default f =? "")
    then fromLib (yaml_Unmarshal t (tag_default f) field)
    else if tag_required f =? "true"
    then (field, Some (ErrNew (Name f ++ " is required, but blank")))
    else (field, None)
  else (field, None).

(** [reflect.Indirect(v).Kind() == reflect.Struct] for a slice element:
    a struct, or a pointer to a struct that is not nil. *)
Definition indirectIsStruct (t : ty) : value t -> bool :=
  match t return value t -> bool with
  | TStruct _ => fun _ => true
  | TPtr elem =>
      match elem return value (TPtr elem) -> bool with
      | TStruct _ => fun p => match p with Some _ => true | None => false end
      | _ => fun _ => false
      end
  | _ => fun _ => false
  end.

(** [processTags] on a value of type [t] (the source is handed a pointer to
    it and starts with [reflect.Indirect]).  [processFields] is its loop on
    the fields that remain, and [descend] is lines 164-183 for one field:
    the loop through the pointers, then the recursion into a struct or into
    the elements of a slice.  The call of line 169 is always on a struct, so
    [descend] enters [processFields] at once. *)
Fixpoint processTags (os : OS) (t : ty) (prefix : list string) {struct t}
  : value t -> value t * option error :=
  match t return value t -> value t * option error with
  | TStruct fs => processFields os fs prefix
  | _ => fun config =>
      (config, Some (ErrNew "invalid config, should be struct"))
  end
with processFields (os : OS) (fs : fields) (prefix : list string) {struct fs}
  : values fs -> values fs * option error :=
  match fs return values fs -> values fs * option error with
  | FNil => fun config => (config, None)
  | FCons f t rest => fun config =>
      let (field, others) := config in
      let (field, err) := overrideStep os f t prefix field in
      match err with
      | Some e => ((field, others), Some e)
      | None =>
          let (field, err) := defaultStep f t field in
          match err with
          | Some e => ((field, others), Some e)
          | None =>
              let (field, err) := descend os t f prefix field in
              match err with
              | Some e => ((field, others), Some e)
              | None =>
                  let (others, err) := processFields os rest prefix others in
                  ((field, others), err)
              end
          end
      end
  end
with descend (os : OS) (t : ty) (f : StructField) (prefix : list string)
    {struct t} : value t -> value t * option error :=
  match t return value t -> value t * option error with
  | TPtr elem => fun p =>
      match p with
      | None => (None, None)
      | Some x =>
          let (x, err) := descend os elem f prefix x in (Some x, err)
      end
  | TStruct fs => processFields os fs (prefix ++ [Name f])
  | TSlice elem => fun s =>
      match s with
      | None => (None, None)
      | Some xs =>
          let (xs, err) :=
            (fix elements (i : nat) (xs : list (value elem))
               : list (value elem) * option error :=
               match xs with
               | [] => ([], None)
               | x :: xs' =>
                   let (x, err) :=
                     if indirectIsStruct elem x
                     then processTags os elem
                            (prefix ++ [Name f; Itoa i]) x
                     else (x, None) in
                   match err with
                   | Some e => (x :: xs', Some e)
                   | None =>
                       let (xs', err) := elements (S i) xs' in
                       (x :: xs', err)
                   end
               end) 0 xs in
          (Some xs, err)
      end
  | _ => fun field => (field, None)
  end.

(** ** Load *)

(** What [Load] leaves behind: the configuration, the files it read (in
    order), and its error. *)
Record LoadResult (t : ty) : Type := mkLoadResult {
  loaded : value t;
  reads : list string;
  failure : option error
}.

(** The loop [for _, file := range files] of [Load]. *)
Fixpoint loadFiles (t : ty) (os : OS) (config : value t) (files : list string)
    (read : list string) : value t * list string * option error :=
  match files with
  | [] => (config, read, None)
  | file :: rest =>
      let (config, err) := load t os config file in
      match err with
      | Some e => (config, read ++ [file], Some e)
      | None => loadFiles t os config rest (read ++ [file])
      end
  end.

Definition Load (t : ty) (os : OS) (config : value t) (files : list string)
  : LoadResult t :=
  match getConfigurations os files with
  | inr err => mkLoadResult t config [] (Some err)
  | inl files =>
      let '(config, read, err) := loadFiles t os config files [] in
      match err with
      | Some e => mkLoadResult t config read (Some e)
      | None =>
          let prefix := getPrefix os in
          let (config, err) :=
            if prefix =? "-" then processTags os t [] config
            else processTags os t [prefix] config in
          mkLoadResult t config read err
      end
  end.

End Configor.

Arguments loaded {t} _.
Arguments reads {t} _.
Arguments failure {t} _.

(** ** Views of the loop of [processTags] *)

(** The body of the loop on one field: override, default or required,
    recursion.  [processFields_cons] below shows it is what [processFields]
    runs. *)
Definition processField {L : Libraries} (os : OS) (f : StructField) (t : ty)
    (prefix : list string) (field : value t) : value t * option error :=
  let (field, err) := overrideStep os f t prefix field in
  match err with
  | Some e => (field, Some e)
  | None =>
      let (field, err) := defaultStep f t field in
      match err with
      | Some e => (field, Some e)
      | None => descend os t f prefix field
      end
  end.

(** The loop on the elements of a slice field (lines 176-182), from
    index [i] on. *)
Fixpoint processElements {L : Libraries} (os : OS) (elem : ty)
    (f : StructField) (prefix : list string) (i : nat)
    (xs : list (value elem)) : list (value elem) * option error :=
  match xs with
  | [] => ([], None)
  | x :: xs' =>
      let (x, err) :=
        if indirectIsStruct elem x
        then processTags os elem (prefix ++ [Name f; Itoa i]) x
        else (x, None) in
      match err with
      | Some e => (x :: xs', Some e)
      | None =>
          let (xs', err) := processElements os elem f prefix (S i) xs' in
          (x :: xs', err)
      end
  end.

(** The fields of a struct, split in two, and its value split likewise. *)
Fixpoint fapp (a b : fields) : fields :=
  match a with
  | FNil => b
  | FCons f t rest => FCons f t (fapp rest b)
  end.

Fixpoint vapp (a b : fields) : values a -> values b -> values (fapp a b) :=
  match a return values a -> values b -> values (fapp a b) with
  | FNil => fun _ vb => vb
  | FCons _ _ rest => fun va vb => (fst va, vapp rest b (snd va) vb)
  end.

(** The prefix list that [Load] hands to [processTags]. *)
Definition initialPrefix (os : OS) : list string :=
  let prefix := getPrefix os in
  if prefix =? "-" then [] else [prefix].

(** Kinds that [processTags] does not look into. *)
Definition isScalar (t : ty) : bool :=
  match t with
  | TInt | TString | TBool | TChan => true
  | _ => false
  end.

(** ** A sample of the collaborators

    Small stand-ins for the libraries, used to run the definitions on
    concrete inputs.  On the inputs they accept they return what the Go
    libraries return; everything else they refuse, with an error of their
    own.  The YAML decoder accepts decimal literals into integers, [true]
    and [false] into booleans, words of letters and digits into strings,
    and into a struct the documents that set nothing or one line [key:
    value] for a scalar field.  The JSON and TOML decoders accept the empty
    object and the empty document.  The encoders print integers, booleans
    and, for JSON, words, structs, pointers and slices. *)
Module Sample.

Definition isDigit (c : ascii) : bool :=
  Nat.leb 48 (nat_of_ascii c) && Nat.leb (nat_of_ascii c) 57.

Definition isLower (c : ascii) : bool :=
  Nat.leb 97 (nat_of_ascii c) && Nat.leb (nat_of_ascii c) 122.

Definition isUpper (c : ascii) : bool :=
  Nat.leb 65 (nat_of_ascii c) && Nat.leb (nat_of_ascii c) 90.

Fixpoint allOf (p : ascii -> bool) (s : string) : bool :=
  match s with
  | EmptyString => true
  | String c s' => p c && allOf p s'
  end.

Definition nonEmpty (s : string) : bool :=
  match s with
  | EmptyString => false
  | String _ _ => true
  end.

(** [strings.ToLower] on ASCII letters, as yaml uses it for the key of a
    field. *)
Fixpoint ToLowerASCII (s : string) : string :=
  match s with
  | EmptyString => EmptyString
  | String c s' =>
      String (if isUpper c then ascii_of_nat (nat_of_ascii c + 32) else c)
             (ToLowerASCII s')
  end.

Fixpoint digits (s : string) (acc : Z) : option Z :=
  match s with
  | EmptyString => Some acc
  | String c s' =>
      if isDigit c
      then digits s' (10 * acc + Z.of_nat (nat_of_ascii c - 48))%Z
      else None
  end.

(** Decimal digits, at most eighteen and without a leading zero (which
    yaml reads as octal), after an optional minus sign. *)
Definition plainDigits (s : string) : option Z :=
  match s with
  | EmptyString => None
  | String c s' =>
      if Ascii.eqb c "0" && nonEmpty s' then None
      else if Nat.leb (String.length s) 18 then digits s 0
      else None
  end.

Definition parseInt (s : string) : option Z :=
  match s with
  | EmptyString => None
  | String c s' =>
      if Ascii.eqb c "-" then option_map Z.opp (plainDigits s')
      else plainDigits s
  end.

(** A word of lower-case letters that yaml resolves to a string: not one of
    the words it reads as a boolean or as null. *)
Definition isPlainWord (s : string) : bool :=
  nonEmpty s && allOf isLower s
  && negb (existsb (String.eqb s)
             ["y"; "n"; "yes"; "no"; "true"; "false"; "on"; "off"; "null"]).

(** A word of letters and digits that yaml does not read as null. *)
Definition isWord (s : string) : bool :=
  nonEmpty s
  && allOf (fun c => isLower c || isUpper c || isDigit c) s
  && negb (existsb (String.eqb s) ["null"; "Null"; "NULL"]).

Definition refused : option string := Some "outside the sample decoder".

(** The error of yaml for a word where another kind is wanted. *)
Definition typeError (word kind : string) : option string :=
  Some ("yaml: unmarshal errors:" ++ LF ++ "  line 1: cannot unmarshal !!str `"
        ++ word ++ "` into " ++ kind)%string.

(** One scalar, with or without the line feed that ends a document. *)
Definition yamlScalar (t : ty) (doc : string) : value t -> value t * option string :=
  let s := TrimSuffix doc LF in
  match t return value t -> value t * option string with
  | TInt => fun v =>
      match parseInt s with
      | Some z => (z, None)
      | None => if isPlainWord s then (v, typeError s "int") else (v, refused)
      end
  | TBool => fun v =>
      if s =? "true" then (true, None)
      else if s =? "false" then (false, None)
      else if isPlainWord s then (v, typeError s "bool")
      else (v, refused)
  | TString => fun v => if isWord s then (s, None) else (v, refused)
  | _ => fun v => (v, refused)
  end.

(** The field that a key names takes the value; a key that names no field
    is passed over. *)
Fixpoint setField (fs : fields) (key word : string)
  : values fs -> values fs * option string :=
  match fs return values fs -> values fs * option string with
  | FNil => fun vs => (vs, None)
  | FCons f t rest => fun vs =>
      if ToLowerASCII (Name f) =? key
      then let (x, err) := yamlScalar t word (fst vs) in ((x, snd vs), err)
      else let (r, err) := setField rest key word (snd vs) in
           ((fst vs, r), err)
  end.

(** A struct: the documents that set nothing (the empty one, the empty
    mapping, the empty mapping with a comment), or one line [key: value]. *)
Definition yamlStruct (fs : fields) (doc : string) (vs : values fs)
  : values fs * option string :=
  let s := TrimSuffix doc LF in
  if (s =? "") || (s =? "{}") || (s =? "{} # none") then (vs, None)
  else
    match index 0 ": " s with
    | Some n =>
        let key := substring 0 n s in
        let word := substring (n + 2) (String.length s - (n + 2)) s in
        if isPlainWord key
           && (isWord word || match parseInt word with
                              | Some _ => true
                              | None => false
                              end)
        then setField fs key word vs
        else (vs, refused)
    | None => (vs, refused)
    end.

Definition yamlUnmarshal (t : ty) : string -> value t -> value t * option string :=
  match t return string -> value t -> value t * option string with
  | TStruct fs => yamlStruct fs
  | t' => yamlScalar t'
  end.

Definition jsonUnmarshal (t : ty) (s : string) (v : value t)
  : value t * option string :=
  match t, s with
  | TStruct _, "{}" => (v, None)
  | _, EmptyString => (v, Some "unexpected end of JSON input")
  | _, _ => (v, refused)
  end.

Definition tomlUnmarshal (t : ty) (s : string) (v : value t)
  : value t * option string :=
  match t, s with
  | TStruct _, EmptyString => (v, None)
  | _, _ => (v, refused)
  end.

Definition quote : string := String (ascii_of_nat 34) EmptyString.

Definition unsupported : string := "json: unsupported type: chan bool".

Definition unprinted : string := "outside the sample encoder".

(** The JSON text of a value, or the error of [json.Marshal] at a channel
    (taken to be a [chan bool]).  Strings other than words are refused. *)
Fixpoint render (t : ty) : value t -> string + string :=
  match t return value t -> string + string with
  | TInt => fun z => inl (NilEmpty.string_of_int (Z.to_int z))
  | TString => fun s =>
      if (s =? "") || isWord s then inl (quote ++ s ++ quote)%string
      else inr unprinted
  | TBool => fun b => inl (if b then "true" else "false")
  | TChan => fun _ => inr unsupported
  | TStruct fs => fun vs =>
      match renders fs vs with
      | inl body => inl ("{" ++ body ++ "}")%string
      | inr e => inr e
      end
  | TPtr elem => fun p =>
      match p with
      | None => inl "null"
      | Some x => render elem x
      end
  | TSlice elem => fun s =>
      match s with
      | None => inl "null"
      | Some xs =>
          match (fix items (xs : list (value elem)) : string + string :=
                   match xs with
                   | [] => inl ""
                   | x :: xs' =>
                       match render elem x, items xs' with
                       | inl a, inl b =>
                           inl (match xs' with
                                | [] => a
                                | _ => a ++ "," ++ b
                                end)%string
                       | inr e, _ => inr e
                       | _, inr e => inr e
                       end
                   end) xs with
          | inl body => inl ("[" ++ body ++ "]")%string
          | inr e => inr e
          end
      end
  end
with renders (fs : fields) : values fs -> string + string :=
  match fs return values fs -> string + string with
  | FNil => fun _ => inl ""
  | FCons f t rest => fun vs =>
      match render t (fst vs), renders rest (snd vs) with
      | inl a, inl b =>
          let member := (quote ++ Name f ++ quote ++ ":" ++ a)%string in
          inl (match rest with
               | FNil => member
               | _ => member ++ "," ++ b
               end)%string
      | inr e, _ => inr e
      | _, inr e => inr e
      end
  end.

Definition jsonMarshal (t : ty) (v : value t) : string * option string :=
  match render t v with
  | inl js => (js, None)
  | inr e => ("", Some e)
  end.

(** The YAML documents of an integer, a boolean and the empty struct, each
    ended by a line feed.  The rest is refused; on a channel [yaml.Marshal]
    does not return at all. *)
Definition yamlMarshal (t : ty) : value t -> string * option string :=
  match t return value t -> string * option string with
  | TInt => fun z => (NilEmpty.string_of_int (Z.to_int z) ++ LF, None)%string
  | TBool => fun b => ((if b then "true" else "false") ++ LF, None)%string
  | TStruct FNil => fun _ => ("{}" ++ LF, None)%string
  | _ => fun _ => ("", Some unprinted)
  end.

Definition libraries : Libraries := {|
  yaml_Unmarshal := yamlUnmarshal;
  json_Unmarshal := jsonUnmarshal;
  toml_Unmarshal := tomlUnmarshal;
  yaml_Marshal := yamlMarshal;
  json_Marshal := jsonMarshal;
  ToUpper := ToUpperASCII
|}.

(** The libraries on a configuration type whose [MarshalYAML] method
    returns an error, which [yaml.Marshal] hands back. *)
Definition with_marshaler : Libraries := {|
  yaml_Unmarshal := yamlUnmarshal;
  json_Unmarshal := jsonUnmarshal;
  toml_Unmarshal := tomlUnmarshal;
  yaml_Marshal := fun _ _ => ("", Some "secrets are not saved");
  json_Marshal := jsonMarshal;
  ToUpper := ToUpperASCII
|}.

(** A process with the given environment and regular files (name and
    contents), started as [/usr/bin/app]. *)
Definition lookup (kvs : list (string * string)) (k : string) : option string :=
  option_map snd (find (fun kv => fst kv =? k) kvs).

Definition process (environ files : list (string * string)) : OS := {|
  Getenv := fun k =>
    match lookup environ k with Some v => v | None => "" end;
  Args0 := "/usr/bin/app";
  Stat := fun file =>
    match lookup files file with
    | Some _ => Some (mkFileInfo true)
    | None => None
    end;
  ReadFile := fun file =>
    match lookup files file with
    | Some data => inl data
    | None => inr ("open " ++ file ++ ": no such file or directory")%string
    end;
  WriteFile := fun _ _ => None
|}.

End Sample.

(** ** Sample inputs *)

Definition production_process : OS :=
  Sample.process [("CONFIGOR_ENV", "production")] [].

Definition go_test_process : OS := {|
  Getenv := fun _ => "";
  Args0 := "/tmp/go-build042/configor/_test/configor.test";
  Stat := fun _ => None;
  ReadFile := fun _ => inr "no such file or directory";
  WriteFile := fun _ _ => None
|}.

(** A configuration with one integer field and a default. *)
Definition port_field : StructField := mkField "Port" "" "5" "".

Definition port_config : ty := TStruct (FCons port_field TInt FNil).

Definition default_process : OS := Sample.process [] [].

Definition app_prefix_process : OS :=
  Sample.process [("CONFIGOR_ENV_PREFIX", "app")] [].

Definition no_prefix_process : OS :=
  Sample.process [("CONFIGOR_ENV_PREFIX", "-")] [].

(** Four files without a recognised extension: an empty one, an empty
    object, a YAML mapping, and one that no decoder reads. *)
Definition settings_process : OS :=
  Sample.process []
    [("settings", ""); ("settings.conf", "{}"); ("settings.cfg", "port: 9");
     ("settings.bad", "}")].

(** A configuration that holds a channel, which no encoder prints. *)
Definition done_config : ty :=
  TStruct (FCons (mkField "Done" "" "" "") TChan FNil).

(** A configuration with an optional database section whose host is
    required, followed by a port with a default. *)
Definition host_field : StructField := mkField "Host" "" "" "true".

Definition db_field : StructField := mkField "DB" "" "" "".

Definition db_config : ty :=
  TStruct (FCons db_field (TPtr (TStruct (FCons host_field TString FNil)))
          (FCons port_field TInt FNil)).

Definition db_host_process : OS :=
  Sample.process [("CONFIGOR_DB_HOST", "localhost")] [].

(** A configuration whose first field is required and has no default. *)
Definition name_field : StructField := mkField "Name" "" "" "true".

Definition named_config : ty :=
  TStruct (FCons name_field TString (FCons port_field TInt FNil)).

(** The same with the database section present and its host blank. *)
Definition blank_host : value db_config := (Some ("", tt), (0%Z, tt)).

(** A field that is required and has a default as well. *)
Definition region_field : StructField := mkField "Region" "" "eu" "true".

(** The port set from the environment: to zero, and to seven. *)
Definition port_zero_process : OS := Sample.process [("CONFIGOR_PORT", "0")] [].

Definition port_seven_process : OS :=
  Sample.process [("CONFIGOR_PORT", "7")] [].







Definition port_seven_verbose_process : OS :=
  Sample.process [("VERBOSE", "true"); ("CONFIGOR_PORT", "7")] [].

(** Two configuration files, and a process that has only the example of
    a third. *)
Definition two_files_process : OS :=
  Sample.process [] [("a.yml", ""); ("b.yml", ""); ("b.development.yml", "")].

Definition example_only_process : OS :=
  Sample.process [] [("a.yml", ""); ("c.example.yml", "")].

(** ** Views used by the further properties *)

(** A reference that [getConfigurations] can resolve: the file, its
    environment variant or its example variant is a regular file. *)
Definition resolvable (os : OS) (env file : string) : bool :=
  isRegularFile os file
  || isRegularFile os (envFileName file env)
  || isRegularFile os (envFileName file "example").

(** The paths one resolvable reference stands for. *)
Definition variants (os : OS) (env file : string) : list string :=
  if isRegularFile os file || isRegularFile os (envFileName file env)
  then (if isRegularFile os file then [file] else [])
       ++ (if isRegularFile os (envFileName file env)
           then [envFileName file env] else [])
  else [envFileName file "example"].


Definition number_file_process : OS := Sample.process [] [("n.yml", "42")].

(** The port set to something that is no number, and a port whose default
    is no number. *)
Definition port_word_process : OS :=
  Sample.process [("CONFIGOR_PORT", "eighty")] [].

Definition bad_default_field : StructField := mkField "Port" "" "eighty" "".

(** What yaml says of the word where an integer is wanted. *)
Definition eighty_error : string :=
  ("yaml: unmarshal errors:" ++ LF
   ++ "  line 1: cannot unmarshal !!str `eighty` into int")%string.

(** A required port without a default. *)
Definition required_port_field : StructField := mkField "Port" "" "" "true".

(** A field without any tag. *)
Definition level_field : StructField := mkField "Level" "" "" "".

(** Element types whose elements the slice loop can enter: structs and
    pointers to structs. *)
Definition structElement (elem : ty) : bool :=
  match elem with
  | TStruct _ => true
  | TPtr (TStruct _) => true
  | _ => false
  end.

(** [n] pointers around a type, and a value behind [n] pointers that are
    not nil. *)
Fixpoint TPtrs (n : nat) (t : ty) : ty :=
  match n with
  | 0 => t
  | S n' => TPtr (TPtrs n' t)
  end.

Fixpoint boxes (n : nat) (t : ty) (v : value t) : value (TPtrs n t) :=
  match n return value (TPtrs n t) with
  | 0 => v
  | S n' => Some (boxes n' t v)
  end.

(** A list of tags. *)
Definition tags_field : StructField := mkField "Tags" "" "" "".

(** Induction on types and their fields together. *)
Scheme ty_fields_ind := Induction for ty Sort Prop
  with fields_ty_ind := Induction for fields Sort Prop.

(** The names of the fields of a type, at any depth. *)
Fixpoint fieldNames (t : ty) : list string :=
  match t with
  | TStruct fs => fieldNamesOf fs
  | TPtr elem => fieldNames elem
  | TSlice elem => fieldNames elem
  | _ => []
  end
with fieldNamesOf (fs : fields) : list string :=
  match fs with
  | FNil => []
  | FCons f t rest => Name f :: fieldNames t ++ fieldNamesOf rest
  end.

(** The errors the binding engine makes or passes on, for a type whose
    field names are [names]. *)
Definition engineError (names : list string) (e : error) : Prop :=
  (exists m : string, e = ErrLib m)
  \/ e = ErrNew "invalid config, should be struct"
  \/ exists name : string,
      In name names /\ e = ErrNew (name ++ " is required, but blank").

(** Types without [default] and [required:"true"] tags on the fields the
    engine reaches, and without slices of pointers to structs. *)
Fixpoint untagged (t : ty) : bool :=
  match t with
  | TStruct fs => untaggedFields fs
  | TPtr elem => untagged elem
  | TSlice elem =>
      match elem with
      | TStruct efs => untaggedFields efs
      | TPtr (TStruct _) => false
      | _ => true
      end
  | _ => true
  end
with untaggedFields (fs : fields) : bool :=
  match fs with
  | FNil => true
  | FCons f t rest =>
      (tag_default f =? "") && negb (tag_required f =? "true")
      && untagged t && untaggedFields rest
  end.

(** The variables the engine can consult below a field [f] of type [t],
    and for the fields [fs] of a struct, under a prefix: the name of each
    field, and the names below it, for every index of a slice. *)
Fixpoint consults {L : Libraries} (t : ty) (f : StructField)
    (prefix : list string) (k : string) : Prop :=
  match t with
  | TStruct fs => consultsFields fs (prefix ++ [Name f]) k
  | TPtr elem => consults elem f prefix k
  | TSlice elem =>
      match elem with
      | TStruct efs =>
          exists i : nat, consultsFields efs (prefix ++ [Name f; Itoa i]) k
      | _ => False
      end
  | _ => False
  end
with consultsFields {L : Libraries} (fs : fields) (prefix : list string)
    (k : string) : Prop :=
  match fs with
  | FNil => False
  | FCons f t rest =>
      k = envNameOf f prefix
      \/ consults t f prefix k
      \/ consultsFields rest prefix k
  end.

(** A configuration with one field without tags, in a process where
    another variable is set and one file exists. *)
Definition level_config : ty := TStruct (FCons level_field TInt FNil).

Definition level_process : OS :=
  Sample.process [("CONFIGOR_PORT", "7")] [("a.yml", "")].

(** A process whose files cannot be written, and processes that hold what
    [Save] wrote. *)
Definition read_only_process : OS := {|
  Getenv := fun _ => "";
  Args0 := "/usr/bin/app";
  Stat := fun _ => None;
  ReadFile := fun _ => inr "no such file or directory";
  WriteFile := fun _ _ => Some "permission denied"
|}.

Definition saved_yaml_process : OS :=
  Sample.process [] [("n.yml", ("5" ++ LF)%string)].

Definition saved_json_process : OS := Sample.process [] [("e.json", "{}")].

(** The files of [paths] decoded one after another onto a configuration,
    and the condition that each of them is read and decoded without
    error. *)
Definition mergeFiles {L : Libraries} (t : ty) (os : OS) (config : value t)
    (paths : list string) : value t :=
  fold_left (fun merged file => fst (load t os merged file)) paths config.

Fixpoint mergesCleanly {L : Libraries} (t : ty) (os : OS)
    (paths : list string) (config : value t) : Prop :=
  match paths with
  | [] => True
  | file :: rest =>
      snd (load t os config file) = None
      /\ mergesCleanly t os rest (fst (load t os config file))
  end.

(** Two files that set the same field. *)
Definition layered_process : OS :=
  Sample.process [] [("a.yml", "port: 1"); ("b.yml", "port: 2")].

(** * Properties *)

(** ** The loop of [processTags], field by field *)

Lemma processTags_struct {L : Libraries} (os : OS) (fs : fields)
    (prefix : list string) (config : values fs) :
  processTags os (TStruct fs) prefix config = processFields os fs prefix config.
Proof. reflexivity. Qed.

Lemma processFields_cons {L : Libraries} (os : OS) (f : StructField) (t : ty)
    (rest : fields) (prefix : list string) (v : value t) (vs : values rest) :
  processFields os (FCons f t rest) prefix (v, vs) =
  let (v', err) := processField os f t prefix v in
  match err with
  | Some e => ((v', vs), Some e)
  | None =>
      let (vs', err') := processFields os rest prefix vs in ((v', vs'), err')
  end.
Proof.
  unfold processField; simpl.
  destruct (overrideStep os f t prefix v) as [v1 [e1|]]; [reflexivity|].
  destruct (defaultStep f t v1) as [v2 [e2|]]; [reflexivity|].
  destruct (descend os t f prefix v2) as [v3 [e3|]]; reflexivity.
Qed.

Lemma processFields_app {L : Libraries} (os : OS) (pre post : fields)
    (prefix : list string) (vpre : values pre) (vpost : values post) :
  processFields os (fapp pre post) prefix (vapp pre post vpre vpost) =
  let (vpre', err) := processFields os pre prefix vpre in
  match err with
  | Some e => (vapp pre post vpre' vpost, Some e)
  | None =>
      let (vpost', err') := processFields os post prefix vpost in
      (vapp pre post vpre' vpost', err')
  end.
Proof.
  induction pre as [|f t pre IH].
  - destruct vpre; simpl.
    destruct (processFields os post prefix vpost); reflexivity.
  - destruct vpre as [v vpre].
    change (vapp (FCons f t pre) post (v, vpre) vpost)
      with (v, vapp pre post vpre vpost).
    change (fapp (FCons f t pre) post) with (FCons f t (fapp pre post)).
    rewrite !processFields_cons, IH.
    destruct (processField os f t prefix v) as [v' [e|]]; [reflexivity|].
    destruct (processFields os pre prefix vpre) as [vpre' [e|]]; [reflexivity|].
    destruct (processFields os post prefix vpost) as [vpost' err'].
    reflexivity.
Qed.

Lemma descend_scalar {L : Libraries} (os : OS) (t : ty) (f : StructField)
    (prefix : list string) (v : value t) :
  isScalar t = true -> descend os t f prefix v = (v, None).
Proof. destruct t; simpl; intros H; try discriminate H; reflexivity. Qed.

Lemma descend_slice {L : Libraries} (os : OS) (elem : ty) (f : StructField)
    (prefix : list string) (xs : list (value elem)) :
  descend os (TSlice elem) f prefix (Some xs) =
  let (xs', err) := processElements os elem f prefix 0 xs in (Some xs', err).
Proof.
  simpl.
  match goal with
  | |- (let (_, _) := ?F 0 xs in _) = _ =>
      assert (E : forall n ys, F n ys = processElements os elem f prefix n ys)
  end.
  { intros n ys; revert n.
    induction ys as [|y ys IH]; intros n; [reflexivity|].
    simpl. rewrite IH. reflexivity. }
  rewrite E. reflexivity.
Qed.

(** ** Strings *)

Lemma HasPrefix_iff (s p : string) :
  HasPrefix s p = true <-> exists b, s = (p ++ b)%string.
Proof.
  unfold HasPrefix. revert s.
  induction p as [|c p IH]; intros s; simpl.
  - split; [intros _; exists s; reflexivity | intros _; now destruct s].
  - destruct s as [|d s]; simpl.
    + split; [discriminate | intros [b Hb]; discriminate Hb].
    + destruct (ascii_dec c d) as [->|Hcd].
      * rewrite IH. split; intros [b Hb]; exists b.
        -- now rewrite Hb.
        -- now injection Hb.
      * split; [discriminate|].
        intros [b Hb]. injection Hb as Hd _. congruence.
Qed.

Lemma Contains_iff (s substr : string) :
  Contains s substr = true <->
  exists a b, s = (a ++ substr ++ b)%string.
Proof.
  induction s as [|c s IH].
  - cbn [Contains]. rewrite orb_false_r, HasPrefix_iff. split.
    + intros [b Hb]. exists EmptyString, b. exact Hb.
    + intros [a [b Hab]]. destruct a as [|d a]; [|discriminate Hab].
      exists b. exact Hab.
  - cbn [Contains]. rewrite orb_true_iff, HasPrefix_iff, IH. split.
    + intros [[b Hb]|[a [b Hab]]].
      * exists EmptyString, b. exact Hb.
      * exists (String c a), b. simpl. now rewrite Hab.
    + intros [a [b Hab]]. destruct a as [|d a].
      * left. exists b. exact Hab.
      * right. injection Hab as _ Hs. exists a, b. exact Hs.
Qed.

(** ** The environment name (C9) *)

(** C9. [ENV] returns the value of [CONFIGOR_ENV] when it is not empty;
    otherwise ["test"] when the invocation path [os.Args[0]] matches the
    pattern ["/_test/"], that is when it contains that text, and
    ["development"] in all remaining cases. *)
Theorem ENV_resolution (os : OS) :
  (Getenv os "CONFIGOR_ENV" <> "" -> ENV os = Getenv os "CONFIGOR_ENV")
  /\ (Getenv os "CONFIGOR_ENV" = "" ->
      (exists a b, Args0 os = (a ++ "/_test/" ++ b)%string) ->
      ENV os = "test")
  /\ (Getenv os "CONFIGOR_ENV" = "" ->
      ~ (exists a b, Args0 os = (a ++ "/_test/" ++ b)%string) ->
      ENV os = "development").
Proof.
  unfold ENV. repeat split.
  - intros H. apply String.eqb_neq in H. now rewrite H.
  - intros -> H. apply Contains_iff in H. now rewrite H.
  - intros -> H. rewrite <- Contains_iff in H.
    destruct (Contains (Args0 os) "/_test/"); [now destruct H | reflexivity].
Qed.

Lemma ENV_resolution_witness :
  ENV production_process = "production"
  /\ ENV go_test_process = "test"
  /\ ENV (Sample.process [] []) = "development".
Proof.
  split; [|split].
  - apply (proj1 (ENV_resolution production_process)). discriminate.
  - apply (proj1 (proj2 (ENV_resolution go_test_process))).
    + reflexivity.
    + exists "/tmp/go-build042/configor", "configor.test". reflexivity.
  - apply (proj2 (proj2 (ENV_resolution (Sample.process [] [])))).
    + reflexivity.
    + rewrite <- Contains_iff. discriminate.
Defined.

(** ** Load hands the merged configuration to the binding engine *)

Lemma Load_after_files {L : Libraries} (t : ty) (os : OS) (config : value t)
    (files paths read : list string) (merged : value t) :
  getConfigurations os files = inl paths ->
  loadFiles t os config paths [] = (merged, read, None) ->
  Load t os config files =
  let (config', err) := processTags os t (initialPrefix os) merged in
  mkLoadResult t config' read err.
Proof.
  intros Hpaths Hfiles. unfold Load, initialPrefix.
  rewrite Hpaths, Hfiles.
  destruct (getPrefix os =? "-"); reflexivity.
Qed.

(** C8. The prefix that [Load] hands to the binding engine is the value of
    [CONFIGOR_ENV_PREFIX] when that variable is not empty and the token
    ["configor"] otherwise; when the variable is ["-"] the engine runs with
    the empty prefix list, and the derived name of a top-level field is then
    its upper-cased name alone. *)
Theorem Load_initial_prefix {L : Libraries} (os : OS) :
  (forall (t : ty) (config merged : value t) (files paths read : list string),
      getConfigurations os files = inl paths ->
      loadFiles t os config paths [] = (merged, read, None) ->
      Load t os config files =
      let (config', err) := processTags os t (initialPrefix os) merged in
      mkLoadResult t config' read err)
  /\ (Getenv os "CONFIGOR_ENV_PREFIX" <> "" ->
      getPrefix os = Getenv os "CONFIGOR_ENV_PREFIX")
  /\ (Getenv os "CONFIGOR_ENV_PREFIX" = "" -> getPrefix os = "configor")
  /\ (Getenv os "CONFIGOR_ENV_PREFIX" = "" -> initialPrefix os = ["configor"])
  /\ (Getenv os "CONFIGOR_ENV_PREFIX" <> "" ->
      Getenv os "CONFIGOR_ENV_PREFIX" <> "-" ->
      initialPrefix os = [Getenv os "CONFIGOR_ENV_PREFIX"])
  /\ (Getenv os "CONFIGOR_ENV_PREFIX" = "-" ->
      initialPrefix os = []
      /\ forall f : StructField,
          tag_env f = "" -> envNameOf f (initialPrefix os) = ToUpper (Name f)).
Proof.
  split; [|split; [|split; [|split; [|split]]]].
  - intros t config merged files paths read Hpaths Hfiles.
    now apply Load_after_files with (paths := paths).
  - intros H. unfold getPrefix. apply String.eqb_neq in H. now rewrite H.
  - intros H. unfold getPrefix. now rewrite H.
  - intros H. unfold initialPrefix, getPrefix. now rewrite H.
  - intros Hne Hdash. unfold initialPrefix, getPrefix.
    apply String.eqb_neq in Hne. rewrite Hne. simpl.
    apply String.eqb_neq in Hdash. now rewrite Hdash.
  - intros H.
    assert (E : initialPrefix os = []).
    { unfold initialPrefix, getPrefix. now rewrite H. }
    split; [exact E|].
    intros f Hf. rewrite E. unfold envNameOf. now rewrite Hf.
Qed.

Lemma Load_initial_prefix_witness :
  (Load (L := Sample.libraries) port_config default_process (0%Z, tt) [] =
   mkLoadResult port_config (5%Z, tt) [] None)
  /\ getPrefix app_prefix_process = "app"
  /\ getPrefix default_process = "configor"
  /\ initialPrefix default_process = ["configor"]
  /\ initialPrefix app_prefix_process = ["app"]
  /\ (initialPrefix no_prefix_process = []
      /\ envNameOf (L := Sample.libraries) port_field
           (initialPrefix no_prefix_process) = "PORT").
Proof.
  pose (spec := Load_initial_prefix (L := Sample.libraries)).
  split; [|split; [|split; [|split; [|split]]]].
  - apply (proj1 (spec default_process)
             port_config (0%Z, tt) (0%Z, tt) [] [] []); reflexivity.
  - apply (proj1 (proj2 (spec app_prefix_process))). discriminate.
  - apply (proj1 (proj2 (proj2 (spec default_process)))). reflexivity.
  - apply (proj1 (proj2 (proj2 (proj2 (spec default_process))))).
    reflexivity.
  - apply (proj1 (proj2 (proj2 (proj2 (proj2 (spec app_prefix_process))))));
      discriminate.
  - destruct (proj2 (proj2 (proj2 (proj2 (proj2 (spec no_prefix_process)))))
                eq_refl)
      as [E N].
    split; [exact E|]. apply (N port_field). reflexivity.
Defined.

(** ** Files without a recognised extension (C7) *)

(** C7. For a file whose name ends in none of [.yaml], [.yml], [.toml] and
    [.json], [load] hands what it read to the TOML decoder, then to the JSON
    decoder if that failed, then to the YAML decoder if that failed too; it
    succeeds at the first decoder that returns no error (the later ones are
    not run) and fails, with ["failed to decode config"], exactly when all
    three fail. *)
Theorem load_unknown_extension {L : Libraries} (t : ty) (os : OS)
    (config : value t) (file data : string) :
  HasSuffix file ".yaml" = false ->
  HasSuffix file ".yml" = false ->
  HasSuffix file ".toml" = false ->
  HasSuffix file ".json" = false ->
  ReadFile os file = inl data ->
  let toml := toml_Unmarshal t data config in
  let json := json_Unmarshal t data (fst toml) in
  let yaml := yaml_Unmarshal t data (fst json) in
  (snd toml = None -> load t os config file = (fst toml, None))
  /\ (snd toml <> None -> snd json = None ->
      load t os config file = (fst json, None))
  /\ (snd toml <> None -> snd json <> None -> snd yaml = None ->
      load t os config file = (fst yaml, None))
  /\ (snd toml <> None -> snd json <> None -> snd yaml <> None ->
      load t os config file =
      (fst yaml, Some (ErrNew "failed to decode config")))
  /\ (snd (load t os config file) <> None <->
      snd toml <> None /\ snd json <> None /\ snd yaml <> None).
Proof.
  intros Hyaml Hyml Htoml Hjson Hread toml json yaml.
  assert (E : load t os config file =
    match snd toml with
    | None => (fst toml, None)
    | Some _ =>
        match snd json with
        | None => (fst json, None)
        | Some _ =>
            match snd yaml with
            | None => (fst yaml, None)
            | Some _ => (fst yaml, Some (ErrNew "failed to decode config"))
            end
        end
    end).
  { unfold load. rewrite Hread, Hyaml, Hyml, Htoml, Hjson. simpl.
    subst yaml json toml.
    destruct (toml_Unmarshal t data config) as [c1 [e1|]]; [|reflexivity].
    simpl.
    destruct (json_Unmarshal t data c1) as [c2 [e2|]]; [|reflexivity].
    simpl.
    destruct (yaml_Unmarshal t data c2) as [c3 [e3|]]; reflexivity. }
  rewrite E.
  destruct (snd toml) as [e1|], (snd json) as [e2|], (snd yaml) as [e3|];
    simpl; repeat split; intros; try congruence; try tauto;
    try (intros; discriminate).
  all: try (repeat split; discriminate).
  all: try (destruct H as [? [? ?]]; congruence).
Qed.

Lemma load_unknown_extension_witness :
  load (L := Sample.libraries) port_config settings_process (1%Z, tt)
    "settings" = ((1%Z, tt), None)
  /\ load (L := Sample.libraries) port_config settings_process (1%Z, tt)
       "settings.conf" = ((1%Z, tt), None)
  /\ load (L := Sample.libraries) port_config settings_process (1%Z, tt)
       "settings.cfg" = ((9%Z, tt), None)
  /\ load (L := Sample.libraries) port_config settings_process (1%Z, tt)
       "settings.bad" = ((1%Z, tt), Some (ErrNew "failed to decode config")).
Proof.
  pose (spec := fun file data (H : ReadFile settings_process file = inl data)
                    y1 y2 y3 y4 =>
    load_unknown_extension (L := Sample.libraries) port_config
      settings_process (1%Z, tt) file data y1 y2 y3 y4 H).
  split; [|split; [|split]].
  - apply (proj1 (spec "settings" "" eq_refl eq_refl eq_refl eq_refl eq_refl)).
    reflexivity.
  - apply (proj1 (proj2 (spec "settings.conf" "{}" eq_refl
                           eq_refl eq_refl eq_refl eq_refl)));
      [discriminate | reflexivity].
  - apply (proj1 (proj2 (proj2 (spec "settings.cfg" "port: 9" eq_refl
                                  eq_refl eq_refl eq_refl eq_refl))));
      [discriminate | discriminate | reflexivity].
  - apply (proj1 (proj2 (proj2 (proj2 (spec "settings.bad" "}" eq_refl
                                         eq_refl eq_refl eq_refl eq_refl)))));
      discriminate.
Defined.

(** ** Save (C6) *)

(** C6. [Save] fails with ["Unknown file type"] for a file name that ends in
    none of [.yaml], [.yml] and [.json], and writes no file then.  When the
    YAML or the JSON encoder fails, [Save] writes no file either, but it
    returns no error: line 101 returns [nil] where the error of the encoder
    was at hand. *)
Theorem Save_encode_error_dropped {L : Libraries} (t : ty) (os : OS)
    (config : value t) (filename : string) :
  (HasSuffix filename ".yaml" = false ->
   HasSuffix filename ".yml" = false ->
   HasSuffix filename ".json" = false ->
   Save t os config filename = ([], Some (ErrNew "Unknown file type")))
  /\ (HasSuffix filename ".yaml" || HasSuffix filename ".yml" = true ->
      snd (yaml_Marshal t config) <> None ->
      Save t os config filename = ([], None))
  /\ (HasSuffix filename ".yaml" || HasSuffix filename ".yml" = false ->
      HasSuffix filename ".json" = true ->
      snd (json_Marshal t config) <> None ->
      Save t os config filename = ([], None)).
Proof.
  unfold Save. split; [|split].
  - intros -> -> ->. reflexivity.
  - intros -> H. destruct (yaml_Marshal t config) as [js [e|]];
      [reflexivity | now destruct H].
  - intros -> -> H. destruct (json_Marshal t config) as [js [e|]];
      [reflexivity | now destruct H].
Qed.

Lemma Save_encode_error_dropped_witness :
  Save (L := Sample.libraries) port_config default_process (5%Z, tt)
    "config.ini" = ([], Some (ErrNew "Unknown file type"))
  /\ (snd (yaml_Marshal (Libraries := Sample.with_marshaler) port_config
             (5%Z, tt))
      = Some "secrets are not saved"
      /\ Save (L := Sample.with_marshaler) port_config default_process
           (5%Z, tt) "config.yml" = ([], None))
  /\ (snd (json_Marshal (Libraries := Sample.libraries) done_config (None, tt))
      = Some "json: unsupported type: chan bool"
      /\ Save (L := Sample.libraries) done_config default_process (None, tt)
           "config.json" = ([], None)).
Proof.
  split; [|split].
  - apply (proj1 (Save_encode_error_dropped (L := Sample.libraries)
                    port_config default_process (5%Z, tt) "config.ini"));
      reflexivity.
  - split; [reflexivity|].
    apply (proj1 (proj2 (Save_encode_error_dropped (L := Sample.with_marshaler)
                           port_config default_process (5%Z, tt)
                           "config.yml")));
      [reflexivity | discriminate].
  - split; [reflexivity|].
    apply (proj2 (proj2 (Save_encode_error_dropped (L := Sample.libraries)
                           done_config default_process (None, tt)
                           "config.json")));
      [reflexivity | reflexivity | discriminate].
Defined.

(** ** Fail-fast and the required check (C2) *)

(** An error at one field ends the loop: the fields before it have been
    processed, the fields after it are as they were. *)
Lemma processFields_stops {L : Libraries} (os : OS) (pre : fields)
    (f : StructField) (t : ty) (rest : fields) (prefix : list string)
    (vpre vpre' : values pre) (v v' : value t) (vrest : values rest)
    (e : error) :
  processFields os pre prefix vpre = (vpre', None) ->
  processField os f t prefix v = (v', Some e) ->
  processFields os (fapp pre (FCons f t rest)) prefix
    (vapp pre (FCons f t rest) vpre (v, vrest)) =
  (vapp pre (FCons f t rest) vpre' (v', vrest), Some e).
Proof.
  intros Hpre Hf.
  rewrite processFields_app, Hpre, processFields_cons, Hf. reflexivity.
Qed.

(** A field that the loop gets past: the loop goes on with the rest. *)
Lemma processFields_continues {L : Libraries} (os : OS) (pre : fields)
    (f : StructField) (t : ty) (rest : fields) (prefix : list string)
    (vpre vpre' : values pre) (v v' : value t) (vrest : values rest) :
  processFields os pre prefix vpre = (vpre', None) ->
  processField os f t prefix v = (v', None) ->
  processFields os (fapp pre (FCons f t rest)) prefix
    (vapp pre (FCons f t rest) vpre (v, vrest)) =
  let (vrest', err) := processFields os rest prefix vrest in
  (vapp pre (FCons f t rest) vpre' (v', vrest'), err).
Proof.
  intros Hpre Hf.
  rewrite processFields_app, Hpre, processFields_cons, Hf.
  destruct (processFields os rest prefix vrest); reflexivity.
Qed.

(** C2. When the loop reaches a field that is blank after the override
    step, has no default and is tagged [required:"true"], the engine returns
    the error that names the field and stops: the field and every later
    field of the struct are left as the override step found them.  An
    error from inside a field stops the enclosing struct in the same way.  A
    field with a default never raises the required error: when blank it gets
    the default decoded into it, and the only error its default step can
    return is the decoder's. *)
Theorem required_blank_stops {L : Libraries} (os : OS) :
  (forall (pre : fields) (f : StructField) (t : ty) (rest : fields)
          (prefix : list string) (vpre vpre' : values pre) (v v1 : value t)
          (vrest : values rest),
      processFields os pre prefix vpre = (vpre', None) ->
      overrideStep os f t prefix v = (v1, None) ->
      isBlank t v1 = true ->
      tag_default f = "" ->
      tag_required f = "true" ->
      processFields os (fapp pre (FCons f t rest)) prefix
        (vapp pre (FCons f t rest) vpre (v, vrest)) =
      (vapp pre (FCons f t rest) vpre' (v1, vrest),
       Some (ErrNew (Name f ++ " is required, but blank"))))
  /\ (forall (pre : fields) (f : StructField) (t : ty) (rest : fields)
             (prefix : list string) (vpre vpre' : values pre)
             (v v1 v2 v3 : value t) (vrest : values rest) (e : error),
         processFields os pre prefix vpre = (vpre', None) ->
         overrideStep os f t prefix v = (v1, None) ->
         defaultStep f t v1 = (v2, None) ->
         descend os t f prefix v2 = (v3, Some e) ->
         processFields os (fapp pre (FCons f t rest)) prefix
           (vapp pre (FCons f t rest) vpre (v, vrest)) =
         (vapp pre (FCons f t rest) vpre' (v3, vrest), Some e))
  /\ (forall (f : StructField) (t : ty) (v1 : value t),
         tag_default f <> "" ->
         (isBlank t v1 = true ->
          defaultStep f t v1 = fromLib (yaml_Unmarshal t (tag_default f) v1))
         /\ (isBlank t v1 = false -> defaultStep f t v1 = (v1, None))
         /\ forall msg : string,
             snd (defaultStep f t v1) <> Some (ErrNew msg)).
Proof.
  split; [|split].
  - intros pre f t rest prefix vpre vpre' v v1 vrest Hpre Hov Hblank Hdef Hreq.
    apply processFields_stops; [exact Hpre|].
    unfold processField. rewrite Hov.
    unfold defaultStep. rewrite Hblank, Hdef, Hreq. reflexivity.
  - intros pre f t rest prefix vpre vpre' v v1 v2 v3 vrest e
      Hpre Hov Hdef Hdesc.
    apply processFields_stops; [exact Hpre|].
    unfold processField. rewrite Hov, Hdef. exact Hdesc.
  - intros f t v1 Hdef. apply String.eqb_neq in Hdef.
    unfold defaultStep. rewrite Hdef. simpl.
    destruct (isBlank t v1).
    + split; [reflexivity|]. split; [discriminate|].
      intros msg. unfold fromLib. simpl.
      destruct (snd (yaml_Unmarshal t (tag_default f) v1)); discriminate.
    + split; [discriminate|]. split; [reflexivity|].
      intros msg. discriminate.
Qed.

Lemma required_blank_stops_witness :
  processTags (L := Sample.libraries) default_process named_config
    ["configor"] ("", (0%Z, tt)) =
  (("", (0%Z, tt)), Some (ErrNew "Name is required, but blank"))
  /\ processTags (L := Sample.libraries) default_process db_config
       ["configor"] blank_host =
     (blank_host, Some (ErrNew "Host is required, but blank"))
  /\ (defaultStep (L := Sample.libraries) region_field TString "" = ("eu", None)
      /\ defaultStep (L := Sample.libraries) region_field TString "us"
         = ("us", None)
      /\ snd (defaultStep (L := Sample.libraries) region_field TString "")
         <> Some (ErrNew "Region is required, but blank")).
Proof.
  pose (spec := required_blank_stops (L := Sample.libraries) default_process).
  split; [|split].
  - apply (proj1 spec FNil name_field TString (FCons port_field TInt FNil)
             ["configor"] tt tt "" "" (0%Z, tt)); reflexivity.
  - exact (proj1 (proj2 spec) FNil db_field
             (TPtr (TStruct (FCons host_field TString FNil)))
             (FCons port_field TInt FNil) ["configor"] tt tt
             (Some ("", tt)) (Some ("", tt)) (Some ("", tt)) (Some ("", tt))
             (0%Z, tt) (ErrNew "Host is required, but blank")
             eq_refl eq_refl eq_refl eq_refl).
  - destruct (proj2 (proj2 spec) region_field TString "")
      as [Hblank [_ Hnever]]; [discriminate|].
    destruct (proj2 (proj2 spec) region_field TString "us")
      as [_ [Hset _]]; [discriminate|].
    split; [apply Hblank; reflexivity|].
    split; [apply Hset; reflexivity | apply Hnever].
Defined.

(** ** Nil pointers (C10) *)

(** C10. A field that is a nil pointer once its override and default steps
    are done is not entered: the loop through the pointers stops at once,
    the field stays nil and raises no error, whatever the pointed-to type
    holds (required fields included), and the engine goes on with the next
    field. *)
Theorem nil_pointer_not_entered {L : Libraries} (os : OS) (pre : fields)
    (f : StructField) (elem : ty) (rest : fields) (prefix : list string)
    (vpre vpre' : values pre) (v v1 : value (TPtr elem))
    (vrest : values rest) :
  processFields os pre prefix vpre = (vpre', None) ->
  overrideStep os f (TPtr elem) prefix v = (v1, None) ->
  defaultStep f (TPtr elem) v1 = (None, None) ->
  descend os (TPtr elem) f prefix None = (None, None)
  /\ processField os f (TPtr elem) prefix v = (None, None)
  /\ processFields os (fapp pre (FCons f (TPtr elem) rest)) prefix
       (vapp pre (FCons f (TPtr elem) rest) vpre (v, vrest)) =
     let (vrest', err) := processFields os rest prefix vrest in
     (vapp pre (FCons f (TPtr elem) rest) vpre' (None, vrest'), err).
Proof.
  intros Hpre Hov Hdef.
  assert (Hf : processField os f (TPtr elem) prefix v = (None, None)).
  { unfold processField. rewrite Hov, Hdef. reflexivity. }
  split; [reflexivity|]. split; [exact Hf|].
  now apply processFields_continues.
Qed.

Lemma nil_pointer_not_entered_witness :
  processTags (L := Sample.libraries) db_host_process db_config ["configor"]
    (None, (0%Z, tt)) = ((None, (5%Z, tt)), None).
Proof.
  exact (eq_trans
           (proj2 (proj2 (nil_pointer_not_entered (L := Sample.libraries)
                            db_host_process FNil db_field
                            (TStruct (FCons host_field TString FNil))
                            (FCons port_field TInt FNil) ["configor"]
                            tt tt None None (0%Z, tt)
                            eq_refl eq_refl eq_refl)))
           eq_refl).
Defined.

(** ** Override before default (C1) *)

(** What one field holds after its override and default steps when its
    variable is set and read without error. *)
Lemma processField_overridden {L : Libraries} (os : OS) (f : StructField)
    (t : ty) (prefix : list string) (v v' : value t) :
  envNameOf f prefix <> "" ->
  Getenv os (envNameOf f prefix) <> "" ->
  processField os f t prefix v = (v', None) ->
  let decoded := fst (yaml_Unmarshal t (Getenv os (envNameOf f prefix)) v) in
  snd (yaml_Unmarshal t (Getenv os (envNameOf f prefix)) v) = None
  /\ (isBlank t decoded = false -> v' = fst (descend os t f prefix decoded))
  /\ (isBlank t decoded = true -> tag_default f <> "" ->
      v' = fst (descend os t f prefix
                  (fst (yaml_Unmarshal t (tag_default f) decoded)))).
Proof.
  intros Hname Hvalue. unfold processField, overrideStep.
  apply String.eqb_neq in Hname, Hvalue. rewrite Hname, Hvalue. simpl.
  unfold fromLib.
  destruct (yaml_Unmarshal t (Getenv os (envNameOf f prefix)) v)
    as [d [e|]]; simpl; [discriminate|].
  unfold defaultStep. destruct (isBlank t d).
  - intros H. split; [reflexivity|]. split; [discriminate|].
    intros _ Hdef. apply String.eqb_neq in Hdef. rewrite Hdef in H.
    simpl in H. unfold fromLib in H.
    destruct (yaml_Unmarshal t (tag_default f) d) as [d' [e|]]; simpl in *;
      [discriminate|].
    now rewrite H.
  - intros H. split; [reflexivity|]. split; [|discriminate].
    intros _. now rewrite H.
Qed.

(** A successful run of the loop passes every field. *)
Lemma processFields_ok_inv {L : Libraries} (os : OS) (pre : fields)
    (f : StructField) (t : ty) (rest : fields) (prefix : list string)
    (vpre : values pre) (v : value t) (vrest : values rest)
    (final : values (fapp pre (FCons f t rest))) :
  processFields os (fapp pre (FCons f t rest)) prefix
    (vapp pre (FCons f t rest) vpre (v, vrest)) = (final, None) ->
  exists (vpre' : values pre) (v' : value t) (vrest' : values rest),
    final = vapp pre (FCons f t rest) vpre' (v', vrest')
    /\ processFields os pre prefix vpre = (vpre', None)
    /\ processField os f t prefix v = (v', None)
    /\ processFields os rest prefix vrest = (vrest', None).
Proof.
  rewrite processFields_app.
  destruct (processFields os pre prefix vpre) as [vpre' [e|]];
    [discriminate|].
  rewrite processFields_cons.
  destruct (processField os f t prefix v) as [v' [e|]]; [discriminate|].
  destruct (processFields os rest prefix vrest) as [vrest' [e|]];
    [discriminate|].
  intros H. injection H as <-.
  exists vpre', v', vrest'. repeat split.
Qed.

(** C1, as the code has it.  For a field with a default and a non-empty
    override, after the engine has returned without error: when the value
    decoded from the override is not the zero value of the type, the default
    is not decoded and the field holds the override's value (for a struct,
    pointer or slice field: that value after the recursion into it); when
    the override decodes to the zero value, the default is decoded over it
    and the field holds the default's value. *)
Theorem override_before_default {L : Libraries} (os : OS) (pre : fields)
    (f : StructField) (t : ty) (rest : fields) (prefix : list string)
    (vpre : values pre) (v : value t) (vrest : values rest)
    (final : values (fapp pre (FCons f t rest))) :
  tag_default f <> "" ->
  envNameOf f prefix <> "" ->
  Getenv os (envNameOf f prefix) <> "" ->
  processFields os (fapp pre (FCons f t rest)) prefix
    (vapp pre (FCons f t rest) vpre (v, vrest)) = (final, None) ->
  let decoded := fst (yaml_Unmarshal t (Getenv os (envNameOf f prefix)) v) in
  let defaulted := fst (yaml_Unmarshal t (tag_default f) decoded) in
  exists (vpre' : values pre) (v' : value t) (vrest' : values rest),
    final = vapp pre (FCons f t rest) vpre' (v', vrest')
    /\ (isBlank t decoded = false ->
        v' = fst (descend os t f prefix decoded)
        /\ (isScalar t = true -> v' = decoded))
    /\ (isBlank t decoded = true ->
        v' = fst (descend os t f prefix defaulted)
        /\ (isScalar t = true -> v' = defaulted)).
Proof.
  intros Hdef Hname Hvalue Hrun decoded defaulted.
  destruct (processFields_ok_inv _ _ _ _ _ _ _ _ _ _ Hrun)
    as [vpre' [v' [vrest' [Hfinal [_ [Hfield _]]]]]].
  exists vpre', v', vrest'. split; [exact Hfinal|].
  destruct (processField_overridden os f t prefix v v' Hname Hvalue Hfield)
    as [_ [Hset Hblank]].
  split; intros B.
  - split; [now apply Hset|].
    intros Hs. rewrite (Hset B), descend_scalar by exact Hs. reflexivity.
  - split; [now apply Hblank|].
    intros Hs. rewrite (Hblank B Hdef), descend_scalar by exact Hs.
    reflexivity.
Qed.

Lemma override_before_default_witness :
  exists final : value port_config,
    processFields (L := Sample.libraries) port_seven_process
      (FCons port_field TInt FNil) ["configor"] (0%Z, tt) = (final, None)
    /\ fst final = 7%Z.
Proof.
  exists (7%Z, tt). split; [reflexivity|].
  destruct (override_before_default (L := Sample.libraries)
              port_seven_process FNil port_field TInt FNil ["configor"]
              tt 0%Z tt (7%Z, tt))
    as [vpre' [v' [vrest' [Hfinal [Hset _]]]]].
  - discriminate.
  - discriminate.
  - discriminate.
  - reflexivity.
  - destruct (Hset eq_refl) as [_ Hscalar].
    rewrite Hfinal. simpl. apply Hscalar. reflexivity.
Defined.

(** C1 as stated fails where the override decodes to the zero value: with
    [CONFIGOR_PORT=0] and the default ["5"], [Load] succeeds and [Port]
    holds the default, not the override's value. *)
Lemma override_zero_takes_default :
  tag_default port_field = "5"
  /\ Getenv port_zero_process
       (envNameOf (L := Sample.libraries) port_field
          (initialPrefix port_zero_process)) = "0"
  /\ yaml_Unmarshal (Libraries := Sample.libraries) TInt "0" 0%Z = (0%Z, None)
  /\ Load (L := Sample.libraries) port_config port_zero_process (0%Z, tt) []
     = mkLoadResult port_config (5%Z, tt) [] None
  /\ fst (loaded (Load (L := Sample.libraries) port_config port_zero_process
                    (0%Z, tt) []))
     <> fst (yaml_Unmarshal (Libraries := Sample.libraries) TInt "0" 0%Z).
Proof.
  repeat split; try reflexivity. discriminate.
Qed.

(** ** Names of environment variables (C3) *)

Lemma processElements_app {L : Libraries} (os : OS) (elem : ty)
    (f : StructField) (prefix : list string) (xs1 xs2 : list (value elem)) :
  forall i : nat,
    processElements os elem f prefix i (xs1 ++ xs2) =
    let (xs1', err) := processElements os elem f prefix i xs1 in
    match err with
    | Some e => (xs1' ++ xs2, Some e)
    | None =>
        let (xs2', err') :=
          processElements os elem f prefix (i + length xs1) xs2 in
        (xs1' ++ xs2', err')
    end.
Proof.
  induction xs1 as [|x xs1 IH]; intros i.
  - simpl. rewrite Nat.add_0_r.
    destruct (processElements os elem f prefix i xs2); reflexivity.
  - cbn [app processElements length].
    destruct (if indirectIsStruct elem x
              then processTags os elem (prefix ++ [Name f; Itoa i]) x
              else (x, None)) as [x' [e|]]; [reflexivity|].
    rewrite IH, Nat.add_succ_r.
    destruct (processElements os elem f prefix (S i) xs1) as [xs1' [e|]];
      [reflexivity|].
    cbn [Nat.add].
    destruct (processElements os elem f prefix (S (i + length xs1)) xs2).
    reflexivity.
Qed.

(** The override step looks at the environment through one name only. *)
Lemma overrideStep_reads {L : Libraries} (os : OS) (f : StructField)
    (t : ty) (prefix : list string) (v : value t) :
  overrideStep os f t prefix v =
  if (envNameOf f prefix =? "") || (Getenv os (envNameOf f prefix) =? "")
  then (v, None)
  else fromLib (yaml_Unmarshal t (Getenv os (envNameOf f prefix)) v).
Proof.
  unfold overrideStep.
  destruct (envNameOf f prefix =? ""); [reflexivity|]. simpl.
  destruct (Getenv os (envNameOf f prefix) =? ""); reflexivity.
Qed.



(** ** The order of the resolved files (C4) *)

Lemma getConfigurations_body_results (os : OS) (env file : string)
    (results : list string) :
  getConfigurations_body os env file results =
  match getConfigurations_body os env file [] with
  | inl added => inl (results ++ added)
  | inr err => inr err
  end.
Proof.
  unfold getConfigurations_body.
  destruct (isRegularFile os file);
    destruct (getConfigurationWithENV os file env);
    cbn [negb];
    try destruct (getConfigurationWithENV os file "example");
    cbn [app]; rewrite <- ?app_assoc, ?app_nil_r; reflexivity.
Qed.

Lemma getConfigurations_body_error (os : OS) (env file : string)
    (results : list string) (err : error) :
  getConfigurations_body os env file results = inr err ->
  err = notFound file
  /\ isRegularFile os file = false
  /\ isRegularFile os (envFileName file env) = false
  /\ isRegularFile os (envFileName file "example") = false.
Proof.
  unfold getConfigurations_body, getConfigurationWithENV.
  destruct (isRegularFile os file);
    destruct (isRegularFile os (envFileName file env));
    cbn [negb]; try discriminate.
  destruct (isRegularFile os (envFileName file "example")); [discriminate|].
  intros H. injection H as <-. repeat split.
Qed.

Lemma getConfigurations_loop_results (os : OS) (env : string)
    (files : list string) :
  forall results : list string,
    getConfigurations_loop os env files results =
    match getConfigurations_loop os env files [] with
    | inl added => inl (results ++ added)
    | inr err => inr err
    end.
Proof.
  induction files as [|file files IH]; intros results; simpl.
  - now rewrite app_nil_r.
  - rewrite getConfigurations_body_results.
    destruct (getConfigurations_body os env file []) as [added|err];
      [|reflexivity].
    rewrite (IH (results ++ added)), (IH added).
    destruct (getConfigurations_loop os env files []) as [more|err];
      [|reflexivity].
    now rewrite app_assoc.
Qed.

Lemma getConfigurations_loop_app (os : OS) (env : string)
    (files1 files2 : list string) :
  forall results : list string,
    getConfigurations_loop os env (files1 ++ files2) results =
    match getConfigurations_loop os env files1 results with
    | inl results' => getConfigurations_loop os env files2 results'
    | inr err => inr err
    end.
Proof.
  induction files1 as [|file files1 IH]; intros results; simpl;
    [reflexivity|].
  destruct (getConfigurations_body os env file results); [apply IH|reflexivity].
Qed.

Lemma getConfigurations_app (os : OS) (files1 files2 r1 r2 : list string) :
  getConfigurations os files1 = inl r1 ->
  getConfigurations os files2 = inl r2 ->
  getConfigurations os (files1 ++ files2) = inl (r2 ++ r1).
Proof.
  unfold getConfigurations. intros H1 H2.
  rewrite rev_app_distr, getConfigurations_loop_app, H2.
  rewrite getConfigurations_loop_results, H1. reflexivity.
Qed.

(** [Load] reads the resolved files in their order, up to the first one
    that fails. *)
Lemma loadFiles_reads {L : Libraries} (t : ty) (os : OS)
    (files : list string) :
  forall (config : value t) (read : list string),
    (exists n : nat,
        snd (fst (loadFiles t os config files read)) = read ++ firstn n files)
    /\ (snd (loadFiles t os config files read) = None ->
        snd (fst (loadFiles t os config files read)) = read ++ files).
Proof.
  induction files as [|file files IH]; intros config read; simpl.
  - split; [exists 0|]; now rewrite ?app_nil_r.
  - destruct (load t os config file) as [config' [e|]]; simpl.
    + split; [exists 1; reflexivity | discriminate].
    + destruct (IH config' (read ++ [file])) as [[n Hn] Hall]. split.
      * exists (S n). rewrite Hn, <- app_assoc. reflexivity.
      * intros H. rewrite (Hall H), <- app_assoc. reflexivity.
Qed.

Lemma loadFiles_merge {L : Libraries} (t : ty) (os : OS)
    (paths : list string) :
  forall (config : value t) (read : list string),
    mergesCleanly t os paths config ->
    loadFiles t os config paths read =
    (mergeFiles t os config paths, read ++ paths, None).
Proof.
  induction paths as [|file paths IH]; intros config read Hclean.
  - simpl. now rewrite app_nil_r.
  - destruct Hclean as [Hfile Hrest].
    cbn [loadFiles]. unfold mergeFiles. cbn [fold_left].
    destruct (load t os config file) as [config' err]. simpl in *.
    subst err. rewrite (IH config' (read ++ [file]) Hrest), <- app_assoc.
    reflexivity.
Qed.

(** C4, as the code has it.  The resolver visits the references last one
    first: the paths of a later reference come before the paths of an
    earlier one, and within one reference the file itself comes before its
    environment variant.  [Load] reads the resolved paths in that order and
    decodes each onto what the ones before it left, so the files of the
    first reference are merged last, and the binding engine runs on the
    outcome. *)
Theorem getConfigurations_order {L : Libraries} (os : OS) :
  (forall files1 files2 r1 r2 : list string,
      getConfigurations os files1 = inl r1 ->
      getConfigurations os files2 = inl r2 ->
      getConfigurations os (files1 ++ files2) = inl (r2 ++ r1))
  /\ (forall file : string,
         isRegularFile os file = true ->
         isRegularFile os (envFileName file (ENV os)) = true ->
         getConfigurations os [file] =
         inl [file; envFileName file (ENV os)])
  /\ (forall (t : ty) (config : value t) (files paths : list string),
         getConfigurations os files = inl paths ->
         (exists n : nat,
             reads (Load t os config files) = firstn n paths)
         /\ (failure (Load t os config files) = None ->
             reads (Load t os config files) = paths))
  /\ (forall (t : ty) (config : value t) (files paths : list string),
         getConfigurations os files = inl paths ->
         mergesCleanly t os paths config ->
         Load t os config files =
         let (config', err) :=
           processTags os t (initialPrefix os)
             (mergeFiles t os config paths) in
         mkLoadResult t config' paths err)
  /\ (forall (t : ty) (config : value t) (files1 files2 r1 r2 : list string),
         getConfigurations os files1 = inl r1 ->
         getConfigurations os files2 = inl r2 ->
         mergesCleanly t os (r2 ++ r1) config ->
         Load t os config (files1 ++ files2) =
         let (config', err) :=
           processTags os t (initialPrefix os)
             (mergeFiles t os (mergeFiles t os config r2) r1) in
         mkLoadResult t config' (r2 ++ r1) err).
Proof.
  assert (Hmerged :
            forall (t : ty) (config : value t) (files paths : list string),
              getConfigurations os files = inl paths ->
              mergesCleanly t os paths config ->
              Load t os config files =
              let (config', err) :=
                processTags os t (initialPrefix os)
                  (mergeFiles t os config paths) in
              mkLoadResult t config' paths err).
  { intros t config files paths Hpaths Hclean.
    exact (Load_after_files t os config files paths paths
             (mergeFiles t os config paths) Hpaths
             (loadFiles_merge t os paths config [] Hclean)). }
  split; [|split; [|split; [|split]]];
    [| | |exact Hmerged|
     intros t config files1 files2 r1 r2 H1 H2 Hclean;
     rewrite (Hmerged t config (files1 ++ files2) (r2 ++ r1)
                (getConfigurations_app os files1 files2 r1 r2 H1 H2) Hclean);
     unfold mergeFiles; now rewrite fold_left_app].
  - intros files1 files2 r1 r2. apply getConfigurations_app.
  - intros file Hfile Henv.
    unfold getConfigurations. simpl.
    unfold getConfigurations_body, getConfigurationWithENV.
    rewrite Hfile, Henv. reflexivity.
  - intros t config files paths Hpaths.
    unfold Load. rewrite Hpaths.
    destruct (loadFiles_reads t os paths config []) as [[n Hn] Hall].
    destruct (loadFiles t os config paths []) as [[merged read] [e|]];
      simpl in *.
    + split; [exists n; exact Hn | discriminate].
    + destruct (if getPrefix os =? "-"
                then processTags os t [] merged
                else processTags os t [getPrefix os] merged)
        as [config' err].
      simpl. split; [exists n; exact Hn|]. intros _. now apply Hall.
Qed.

Lemma getConfigurations_order_witness :
  getConfigurations two_files_process (["a.yml"] ++ ["b.yml"])
  = inl (["b.yml"; "b.development.yml"] ++ ["a.yml"])
  /\ getConfigurations two_files_process ["b.yml"]
     = inl ["b.yml"; "b.development.yml"]
  /\ reads (Load (L := Sample.libraries) port_config two_files_process
              (0%Z, tt) ["a.yml"; "b.yml"])
     = ["b.yml"; "b.development.yml"; "a.yml"]
  /\ Load (L := Sample.libraries) port_config layered_process (0%Z, tt)
       ["a.yml"; "b.yml"]
     = mkLoadResult port_config (1%Z, tt) ["b.yml"; "a.yml"] None
  /\ Load (L := Sample.libraries) port_config layered_process (0%Z, tt)
       (["a.yml"] ++ ["b.yml"])
     = mkLoadResult port_config (1%Z, tt) (["b.yml"] ++ ["a.yml"]) None.
Proof.
  pose (spec := getConfigurations_order (L := Sample.libraries)
                  two_files_process).
  pose (layered := getConfigurations_order (L := Sample.libraries)
                     layered_process).
  split; [|split; [|split; [|split]]].
  - apply (proj1 spec); reflexivity.
  - apply (proj1 (proj2 spec) "b.yml"); reflexivity.
  - apply (proj2 (proj1 (proj2 (proj2 spec)) port_config (0%Z, tt)
                    ["a.yml"; "b.yml"] ["b.yml"; "b.development.yml"; "a.yml"]
                    eq_refl)).
    reflexivity.
  - refine (eq_trans
              (proj1 (proj2 (proj2 (proj2 layered))) port_config (0%Z, tt)
                 ["a.yml"; "b.yml"] ["b.yml"; "a.yml"] eq_refl _)
              eq_refl).
    repeat split.
  - refine (eq_trans
              (proj2 (proj2 (proj2 (proj2 layered))) port_config (0%Z, tt)
                 ["a.yml"] ["b.yml"] ["a.yml"] ["b.yml"] eq_refl eq_refl _)
              eq_refl).
    repeat split.
Defined.

(** C4 as stated fails: for the references [a.yml] and [b.yml], in that
    order, the paths of the second one are resolved, and read, before the
    path of the first. *)
Lemma second_reference_comes_first :
  getConfigurations two_files_process ["a.yml"] = inl ["a.yml"]
  /\ getConfigurations two_files_process ["b.yml"]
     = inl ["b.yml"; "b.development.yml"]
  /\ getConfigurations two_files_process ["a.yml"; "b.yml"]
     = inl ["b.yml"; "b.development.yml"; "a.yml"]
  /\ getConfigurations two_files_process ["a.yml"; "b.yml"]
     <> inl (["a.yml"] ++ ["b.yml"; "b.development.yml"])
  /\ reads (Load (L := Sample.libraries) port_config two_files_process
              (0%Z, tt) ["a.yml"; "b.yml"])
     = ["b.yml"; "b.development.yml"; "a.yml"].
Proof.
  repeat split; try reflexivity. discriminate.
Qed.

(** ** Missing files (C5) *)

Lemma getConfigurations_loop_missing (os : OS) (env file : string)
    (files : list string) :
  In file files ->
  isRegularFile os file = false ->
  isRegularFile os (envFileName file env) = false ->
  isRegularFile os (envFileName file "example") = false ->
  forall results : list string,
    exists missing : string,
      In missing files
      /\ getConfigurations_loop os env files results = inr (notFound missing).
Proof.
  intros Hin Hfile Henv Hexample.
  induction files as [|f files IH]; [destruct Hin|].
  intros results. simpl.
  destruct (getConfigurations_body os env f results) as [results'|err] eqn:E.
  - destruct Hin as [->|Hin].
    + exfalso. revert E.
      unfold getConfigurations_body, getConfigurationWithENV.
      rewrite Hfile, Henv, Hexample. discriminate.
    + destruct (IH Hin results') as [missing [Hm Hloop]].
      exists missing. split; [now right | exact Hloop].
  - apply getConfigurations_body_error in E. destruct E as [-> _].
    exists f. split; [now left | reflexivity].
Qed.

(** C5. For a reference with neither the file itself nor its environment
    variant: when the example variant is a regular file, the reference
    resolves to that path alone (on its own and among other references);
    when it is not, [Load] on any list that holds the reference fails with a
    file-not-found error for a reference of that list, having read no file
    and with the configuration as it was. *)
Theorem missing_configuration {L : Libraries} (os : OS) (file : string) :
  isRegularFile os file = false ->
  isRegularFile os (envFileName file (ENV os)) = false ->
  (isRegularFile os (envFileName file "example") = true ->
   getConfigurations os [file] = inl [envFileName file "example"]
   /\ forall files1 files2 r1 r2 : list string,
       getConfigurations os files1 = inl r1 ->
       getConfigurations os files2 = inl r2 ->
       getConfigurations os (files1 ++ file :: files2) =
       inl (r2 ++ envFileName file "example" :: r1))
  /\ (isRegularFile os (envFileName file "example") = false ->
      forall (t : ty) (config : value t) (files : list string),
        In file files ->
        exists missing : string,
          In missing files
          /\ Load t os config files =
             mkLoadResult t config []
               (Some (ErrNew ("Failed to find configuration "
                              ++ missing ++ LF)))).
Proof.
  intros Hfile Henv. split.
  - intros Hexample.
    assert (Hone : getConfigurations os [file] =
                   inl [envFileName file "example"]).
    { unfold getConfigurations. simpl.
      unfold getConfigurations_body, getConfigurationWithENV.
      rewrite Hfile, Henv, Hexample. reflexivity. }
    split; [exact Hone|].
    intros files1 files2 r1 r2 H1 H2.
    change (file :: files2) with ([file] ++ files2).
    rewrite (getConfigurations_app os files1 ([file] ++ files2) _ _ H1
               (getConfigurations_app os [file] files2 _ _ Hone H2)).
    now rewrite <- app_assoc.
  - intros Hexample t config files Hin.
    destruct (getConfigurations_loop_missing os (ENV os) file (rev files)
                (proj1 (in_rev files file) Hin) Hfile Henv Hexample [])
      as [missing [Hm Hloop]].
    exists missing. split; [now apply in_rev|].
    unfold Load, getConfigurations. rewrite Hloop. reflexivity.
Qed.

Lemma missing_configuration_witness :
  (getConfigurations example_only_process ["c.yml"] = inl ["c.example.yml"]
   /\ getConfigurations example_only_process (["a.yml"] ++ ["c.yml"])
      = inl ([] ++ ["c.example.yml"; "a.yml"]))
  /\ exists missing : string,
      In missing ["a.yml"; "d.yml"]
      /\ Load (L := Sample.libraries) port_config example_only_process
           (1%Z, tt) ["a.yml"; "d.yml"] =
         mkLoadResult port_config (1%Z, tt) []
           (Some (ErrNew ("Failed to find configuration " ++ missing ++ LF))).
Proof.
  split.
  - destruct (proj1 (missing_configuration (L := Sample.libraries)
                       example_only_process "c.yml" eq_refl eq_refl) eq_refl)
      as [Hone Hamong].
    split; [exact Hone|].
    apply (Hamong ["a.yml"] [] ["a.yml"] []); reflexivity.
  - apply (proj2 (missing_configuration (L := Sample.libraries)
                    example_only_process "d.yml" eq_refl eq_refl) eq_refl
             port_config (1%Z, tt) ["a.yml"; "d.yml"]).
    right. left. reflexivity.
Defined.

(** * Further properties *)

(** ** File names *)

Lemma string_of_list_ascii_app (a b : list ascii) :
  string_of_list_ascii (a ++ b) =
  (string_of_list_ascii a ++ string_of_list_ascii b)%string.
Proof. induction a as [|c a IH]; simpl; [reflexivity | now rewrite IH]. Qed.

Lemma length_append (a b : string) :
  String.length (a ++ b) = String.length a + String.length b.
Proof. induction a as [|c a IH]; simpl; [reflexivity | now rewrite IH]. Qed.

Lemma substring_all (s : string) : substring 0 (String.length s) s = s.
Proof. induction s as [|c s IH]; simpl; [reflexivity | now rewrite IH]. Qed.

Lemma substring_append_left (a b : string) :
  substring 0 (String.length a) (a ++ b) = a.
Proof.
  induction a as [|c a IH]; simpl.
  - destruct b; reflexivity.
  - now rewrite IH.
Qed.

Lemma substring_append_right (a b : string) :
  substring (String.length a) (String.length b) (a ++ b) = b.
Proof.
  induction a as [|c a IH]; simpl; [apply substring_all | exact IH].
Qed.

Lemma substring_split (s : string) :
  forall n : nat,
    n <= String.length s ->
    s = (substring 0 n s ++ substring n (String.length s - n) s)%string.
Proof.
  induction s as [|c s IH]; intros n Hn.
  - destruct n; [reflexivity | inversion Hn].
  - destruct n as [|n].
    + simpl. now rewrite substring_all.
    + simpl. rewrite <- IH; [reflexivity|]. simpl in Hn. lia.
Qed.

Lemma HasSuffix_iff (s suffix : string) :
  HasSuffix s suffix = true <-> exists p, s = (p ++ suffix)%string.
Proof.
  unfold HasSuffix. rewrite andb_true_iff, Nat.leb_le, String.eqb_eq. split.
  - intros [Hlen Hsub].
    exists (substring 0 (String.length s - String.length suffix) s).
    pose proof (substring_split s (String.length s - String.length suffix))
      as Hsplit.
    replace (String.length s - (String.length s - String.length suffix))
      with (String.length suffix) in Hsplit by lia.
    rewrite Hsub in Hsplit. apply Hsplit. lia.
  - intros [p ->]. rewrite length_append. split; [lia|].
    replace (String.length p + String.length suffix - String.length suffix)
      with (String.length p) by lia.
    apply substring_append_right.
Qed.

Lemma TrimSuffix_append (p suffix : string) :
  TrimSuffix (p ++ suffix) suffix = p.
Proof.
  unfold TrimSuffix.
  assert (H : HasSuffix (p ++ suffix) suffix = true).
  { apply HasSuffix_iff. now exists p. }
  rewrite H, length_append.
  replace (String.length p + String.length suffix - String.length suffix)
    with (String.length p) by lia.
  apply substring_append_left.
Qed.

(** What [ext_scan] returns is the end of the path it scans: a dot followed
    by bytes that are neither dots nor slashes, or nothing, and then only
    because the path has no dot after its last slash. *)
Lemma ext_scan_suffix (rev_path : list ascii) :
  forall seen : list ascii,
    Forall (fun c => c <> "."%char /\ c <> "/"%char) seen ->
    (exists stem, rev rev_path ++ seen = stem ++ ext_scan rev_path seen)
    /\ ((ext_scan rev_path seen = []
         /\ exists dir base,
             rev rev_path ++ seen = dir ++ base
             /\ (dir = [] \/ exists d, dir = d ++ ["/"%char])
             /\ Forall (fun c => c <> "."%char /\ c <> "/"%char) base)
        \/ exists rest,
            ext_scan rev_path seen = "."%char :: rest
            /\ Forall (fun c => c <> "."%char /\ c <> "/"%char) rest).
Proof.
  induction rev_path as [|c r IH]; intros seen Hseen; simpl.
  - split; [exists seen; now rewrite app_nil_r|].
    left. split; [reflexivity|]. exists [], seen. repeat split.
    + now left.
    + exact Hseen.
  - destruct (Ascii.eqb c "/") eqn:Hslash.
    + apply Ascii.eqb_eq in Hslash. subst c. split.
      * exists ((rev r ++ ["/"%char]) ++ seen). now rewrite app_nil_r.
      * left. split; [reflexivity|].
        exists (rev r ++ ["/"%char]), seen. repeat split.
        -- right. now exists (rev r).
        -- exact Hseen.
    + destruct (Ascii.eqb c ".") eqn:Hdot.
      * apply Ascii.eqb_eq in Hdot. subst c. split.
        -- exists (rev r). now rewrite <- app_assoc.
        -- right. exists seen. split; [reflexivity | exact Hseen].
      * apply Ascii.eqb_neq in Hslash, Hdot.
        destruct (IH (c :: seen)) as [[stem Hstem] Hshape].
        { constructor; [split; assumption | exact Hseen]. }
        rewrite <- !app_assoc. cbn [app]. split; [now exists stem|].
        exact Hshape.
Qed.

Lemma Ext_suffix (path : string) :
  (exists stem, path = (stem ++ Ext path)%string)
  /\ ((Ext path = ""
       /\ exists dir base : string,
           path = (dir ++ base)%string
           /\ (dir = "" \/ exists d : string, dir = (d ++ "/")%string)
           /\ Forall (fun c => c <> "."%char /\ c <> "/"%char)
                (list_ascii_of_string base))
      \/ exists rest,
          Ext path = String "." rest
          /\ Forall (fun c => c <> "."%char /\ c <> "/"%char)
               (list_ascii_of_string rest)).
Proof.
  unfold Ext.
  destruct (ext_scan_suffix (rev (list_ascii_of_string path)) [] (Forall_nil _))
    as [[stem Hstem] Hshape].
  rewrite rev_involutive, app_nil_r in Hstem, Hshape. split.
  - exists (string_of_list_ascii stem).
    rewrite <- string_of_list_ascii_app, <- Hstem.
    now rewrite string_of_list_ascii_of_string.
  - destruct Hshape as [[-> [dir [base [Hpath [Hdir Hbase]]]]]
                       |[rest [-> Hrest]]].
    + left. split; [reflexivity|].
      exists (string_of_list_ascii dir), (string_of_list_ascii base).
      split; [|split].
      * rewrite <- string_of_list_ascii_app, <- Hpath.
        now rewrite string_of_list_ascii_of_string.
      * destruct Hdir as [->|[d ->]]; [now left|].
        right. exists (string_of_list_ascii d).
        now rewrite string_of_list_ascii_app.
      * now rewrite list_ascii_of_string_of_list_ascii.
    + right. exists (string_of_list_ascii rest). split; [reflexivity|].
      now rewrite list_ascii_of_string_of_list_ascii.
Qed.

(** X1. The name of the environment variant of a file is the file name with
    [.env] put in front of its extension.  The extension is the end of the
    name from the last dot of its last path element: a dot followed by bytes
    that are neither dots nor slashes.  It is empty only when the last path
    element (what follows the last slash, or the whole name) holds no dot,
    and [.env] is then appended.  The variant is longer than the file name,
    so it is never the file itself. *)
Theorem envFileName_inserts (file env : string) :
  exists stem : string,
    file = (stem ++ Ext file)%string
    /\ envFileName file env = (stem ++ "." ++ env ++ Ext file)%string
    /\ ((Ext file = ""
         /\ envFileName file env = (file ++ "." ++ env)%string
         /\ exists dir base : string,
             file = (dir ++ base)%string
             /\ (dir = "" \/ exists d : string, dir = (d ++ "/")%string)
             /\ Forall (fun c => c <> "."%char /\ c <> "/"%char)
                  (list_ascii_of_string base))
        \/ exists rest,
            Ext file = String "." rest
            /\ Forall (fun c => c <> "."%char /\ c <> "/"%char)
                 (list_ascii_of_string rest))
    /\ String.length (envFileName file env)
       = String.length file + 1 + String.length env
    /\ envFileName file env <> file.
Proof.
  destruct (Ext_suffix file) as [[stem Hstem] Hshape].
  assert (Hname : envFileName file env = (stem ++ "." ++ env ++ Ext file)%string).
  { unfold envFileName. destruct (Ext file =? "") eqn:E.
    - apply String.eqb_eq in E. rewrite E in *.
      assert (Hs : forall s : string, (s ++ "")%string = s).
      { induction s as [|c s IH]; simpl; [reflexivity | now rewrite IH]. }
      rewrite Hs in Hstem. rewrite Hs. now rewrite <- Hstem.
    - rewrite Hstem at 1. now rewrite TrimSuffix_append. }
  assert (Hlen : String.length (envFileName file env)
                 = String.length file + 1 + String.length env).
  { assert (Hl : String.length file
                 = String.length stem + String.length (Ext file)).
    { rewrite Hstem at 1. apply length_append. }
    rewrite Hname, length_append. simpl. rewrite length_append, Hl. lia. }
  exists stem. split; [exact Hstem|]. split; [exact Hname|].
  split; [|split; [exact Hlen|]].
  - destruct Hshape as [[Hext Hlast]|Hdot]; [left | now right].
    split; [exact Hext|]. split; [|exact Hlast].
    unfold envFileName. now rewrite Hext.
  - intros Heq. rewrite Heq in Hlen. lia.
Qed.

(** ** The resolver, reference by reference *)

Lemma getConfigurations_body_variants (os : OS) (env file : string)
    (results : list string) :
  getConfigurations_body os env file results =
  if resolvable os env file
  then inl (results ++ variants os env file)
  else inr (notFound file).
Proof.
  unfold getConfigurations_body, getConfigurationWithENV, resolvable, variants.
  destruct (isRegularFile os file);
    destruct (isRegularFile os (envFileName file env));
    destruct (isRegularFile os (envFileName file "example"));
    cbn [negb orb app]; rewrite <- ?app_assoc, ?app_nil_r; reflexivity.
Qed.

Lemma getConfigurations_loop_variants (os : OS) (env : string)
    (files : list string) :
  forall results : list string,
    forallb (resolvable os env) files = true ->
    getConfigurations_loop os env files results =
    inl (results ++ flat_map (variants os env) files).
Proof.
  induction files as [|file files IH]; intros results Hall; simpl.
  - now rewrite app_nil_r.
  - simpl in Hall. apply andb_true_iff in Hall. destruct Hall as [Hfile Hall].
    rewrite getConfigurations_body_variants, Hfile, (IH _ Hall).
    now rewrite <- app_assoc.
Qed.

Lemma getConfigurations_loop_ok (os : OS) (env : string)
    (files : list string) :
  forall results paths : list string,
    getConfigurations_loop os env files results = inl paths ->
    forallb (resolvable os env) files = true.
Proof.
  induction files as [|file files IH]; intros results paths; simpl;
    [reflexivity|].
  rewrite getConfigurations_body_variants.
  destruct (resolvable os env file); [|discriminate].
  intros H. simpl. exact (IH _ _ H).
Qed.

Lemma forallb_rev {A : Type} (p : A -> bool) (l : list A) :
  forallb p (rev l) = forallb p l.
Proof.
  induction l as [|x l IH]; simpl; [reflexivity|].
  rewrite forallb_app, IH. simpl. rewrite andb_true_r. apply andb_comm.
Qed.

(** X2. [getConfigurations] succeeds exactly when every reference has one
    of its three variants as a regular file, and then it returns, for the
    references taken last to first, the file and its environment variant
    (those of the two that exist, in that order) or else the example
    variant alone. *)
Theorem getConfigurations_variants (os : OS) (files : list string) :
  (forallb (resolvable os (ENV os)) files = true ->
   getConfigurations os files =
   inl (flat_map (variants os (ENV os)) (rev files)))
  /\ ((exists paths, getConfigurations os files = inl paths) ->
      forallb (resolvable os (ENV os)) files = true).
Proof.
  unfold getConfigurations. split.
  - intros Hall.
    rewrite getConfigurations_loop_variants by now rewrite forallb_rev.
    reflexivity.
  - intros [paths H]. rewrite <- forallb_rev.
    exact (getConfigurations_loop_ok _ _ _ _ _ H).
Qed.

Lemma getConfigurations_variants_witness :
  getConfigurations two_files_process ["a.yml"; "b.yml"] =
  inl (flat_map (variants two_files_process (ENV two_files_process))
         (rev ["a.yml"; "b.yml"]))
  /\ forallb (resolvable example_only_process (ENV example_only_process))
       ["c.yml"; "a.yml"] = true.
Proof.
  split.
  - apply (proj1 (getConfigurations_variants two_files_process
                    ["a.yml"; "b.yml"])).
    reflexivity.
  - apply (proj2 (getConfigurations_variants example_only_process
                    ["c.yml"; "a.yml"])).
    exists ["a.yml"; "c.example.yml"]. reflexivity.
Defined.

Lemma variants_regular (os : OS) (env file : string) :
  resolvable os env file = true ->
  Forall (fun path => isRegularFile os path = true) (variants os env file)
  /\ 1 <= length (variants os env file) <= 2.
Proof.
  unfold resolvable, variants.
  destruct (isRegularFile os file) eqn:Hfile;
    destruct (isRegularFile os (envFileName file env)) eqn:Henv;
    destruct (isRegularFile os (envFileName file "example")) eqn:Hexample;
    cbn [orb app length]; intros H; try discriminate H;
    (split; [repeat constructor; assumption | lia]).
Qed.

(** X3. Every path that [getConfigurations] returns is a regular file, and
    each reference stands for one or two of them: the result is at least as
    long as the list of references and at most twice as long. *)
Theorem getConfigurations_regular (os : OS) (files paths : list string) :
  getConfigurations os files = inl paths ->
  Forall (fun path => isRegularFile os path = true) paths
  /\ length files <= length paths <= 2 * length files.
Proof.
  unfold getConfigurations. intros H.
  assert (Hall : forallb (resolvable os (ENV os)) (rev files) = true).
  { exact (getConfigurations_loop_ok _ _ _ _ _ H). }
  rewrite (getConfigurations_loop_variants _ _ _ _ Hall) in H.
  injection H as <-. cbn [app].
  rewrite <- (length_rev files).
  induction (rev files) as [|file rest IH]; simpl.
  - split; [constructor | lia].
  - simpl in Hall. apply andb_true_iff in Hall. destruct Hall as [Hfile Hall].
    destruct (variants_regular os (ENV os) file Hfile) as [Hreg Hlen].
    destruct (IH Hall) as [Hregs Hlens].
    split; [now apply Forall_app|].
    rewrite length_app. lia.
Qed.

Lemma getConfigurations_regular_witness :
  Forall (fun path => isRegularFile two_files_process path = true)
    ["b.yml"; "b.development.yml"; "a.yml"]
  /\ length ["a.yml"; "b.yml"]
     <= length ["b.yml"; "b.development.yml"; "a.yml"]
     <= 2 * length ["a.yml"; "b.yml"].
Proof.
  apply (getConfigurations_regular two_files_process ["a.yml"; "b.yml"]).
  reflexivity.
Defined.

(** X4. When a reference has none of its variants and every reference after
    it can be resolved, the error of [getConfigurations] names that
    reference, whatever comes before it: of several missing references the
    last one is reported. *)
Theorem getConfigurations_reports_last (os : OS)
    (files1 files2 : list string) (file : string) :
  resolvable os (ENV os) file = false ->
  forallb (resolvable os (ENV os)) files2 = true ->
  getConfigurations os (files1 ++ file :: files2) =
  inr (ErrNew ("Failed to find configuration " ++ file ++ LF)).
Proof.
  intros Hfile Hall. unfold getConfigurations.
  rewrite rev_app_distr. simpl. rewrite <- app_assoc.
  rewrite getConfigurations_loop_app.
  rewrite getConfigurations_loop_variants by now rewrite forallb_rev.
  simpl. rewrite getConfigurations_body_variants, Hfile. reflexivity.
Qed.

Lemma getConfigurations_reports_last_witness :
  getConfigurations example_only_process (["x.yml"] ++ "d.yml" :: ["a.yml"]) =
  inr (ErrNew ("Failed to find configuration " ++ "d.yml" ++ LF)).
Proof.
  apply getConfigurations_reports_last; reflexivity.
Defined.

(** ** Load and its files *)




(** X6. When the configuration handed to [Load] is not a struct, [Load]
    still resolves, reads and decodes every file, and only then fails with
    ["invalid config, should be struct"], the configuration being what the
    files made of it. *)
Theorem Load_not_a_struct {L : Libraries} (t : ty) (os : OS)
    (config merged : value t) (files paths read : list string) :
  (forall fs : fields, t <> TStruct fs) ->
  getConfigurations os files = inl paths ->
  loadFiles t os config paths [] = (merged, read, None) ->
  Load t os config files =
  mkLoadResult t merged paths
    (Some (ErrNew "invalid config, should be struct")).
Proof.
  intros Hkind Hpaths Hfiles.
  rewrite (Load_after_files t os config files paths read merged Hpaths Hfiles).
  destruct (loadFiles_reads t os paths config []) as [_ Hall].
  rewrite Hfiles in Hall. simpl in Hall. rewrite (Hall eq_refl).
  destruct t; try reflexivity. now destruct (Hkind fs).
Qed.

Lemma Load_not_a_struct_witness :
  Load (L := Sample.libraries) TInt number_file_process 0%Z ["n.yml"] =
  mkLoadResult TInt 42%Z ["n.yml"]
    (Some (ErrNew "invalid config, should be struct")).
Proof.
  apply (Load_not_a_struct (L := Sample.libraries) TInt number_file_process
           0%Z 42%Z ["n.yml"] ["n.yml"] ["n.yml"]);
    [discriminate | reflexivity | reflexivity].
Defined.

(** ** The binding engine on one field *)

(** X7. A value that the decoder rejects is a hard error.  When the
    variable of a field is set and cannot be decoded, or when the field is
    blank and its default cannot be decoded, the engine returns the
    decoder's error at once: the field holds what the decoder left, no
    default or required check follows a rejected override, and the later
    fields are untouched. *)
Theorem decode_error_stops {L : Libraries} (os : OS) (pre : fields)
    (f : StructField) (t : ty) (rest : fields) (prefix : list string)
    (vpre vpre' : values pre) (v : value t) (vrest : values rest) :
  processFields os pre prefix vpre = (vpre', None) ->
  (forall (v1 : value t) (m : string),
      envNameOf f prefix <> "" ->
      Getenv os (envNameOf f prefix) <> "" ->
      yaml_Unmarshal t (Getenv os (envNameOf f prefix)) v = (v1, Some m) ->
      processFields os (fapp pre (FCons f t rest)) prefix
        (vapp pre (FCons f t rest) vpre (v, vrest)) =
      (vapp pre (FCons f t rest) vpre' (v1, vrest), Some (ErrLib m)))
  /\ (forall (v1 v2 : value t) (m : string),
         overrideStep os f t prefix v = (v1, None) ->
         isBlank t v1 = true ->
         tag_default f <> "" ->
         yaml_Unmarshal t (tag_default f) v1 = (v2, Some m) ->
         processFields os (fapp pre (FCons f t rest)) prefix
           (vapp pre (FCons f t rest) vpre (v, vrest)) =
         (vapp pre (FCons f t rest) vpre' (v2, vrest), Some (ErrLib m))).
Proof.
  intros Hpre. split.
  - intros v1 m Hname Hvalue Hdecode.
    apply processFields_stops; [exact Hpre|].
    unfold processField. rewrite overrideStep_reads.
    apply String.eqb_neq in Hname, Hvalue. rewrite Hname, Hvalue, Hdecode.
    reflexivity.
  - intros v1 v2 m Hov Hblank Hdef Hdecode.
    apply processFields_stops; [exact Hpre|].
    unfold processField. rewrite Hov. unfold defaultStep.
    apply String.eqb_neq in Hdef. rewrite Hblank, Hdef, Hdecode.
    reflexivity.
Qed.

Lemma decode_error_stops_witness :
  processTags (L := Sample.libraries) port_word_process port_config
    ["configor"] (0%Z, tt) =
  ((0%Z, tt), Some (ErrLib eighty_error))
  /\ processTags (L := Sample.libraries) default_process
       (TStruct (FCons bad_default_field TInt (FCons port_field TInt FNil)))
       ["configor"] (0%Z, (0%Z, tt)) =
     ((0%Z, (0%Z, tt)), Some (ErrLib eighty_error)).
Proof.
  split.
  - refine (proj1 (decode_error_stops (L := Sample.libraries)
                     port_word_process FNil port_field TInt FNil
                     ["configor"] tt tt 0%Z tt eq_refl)
              0%Z eighty_error _ _ eq_refl);
      discriminate.
  - refine (proj2 (decode_error_stops (L := Sample.libraries) default_process
                     FNil bad_default_field TInt (FCons port_field TInt FNil)
                     ["configor"] tt tt 0%Z (0%Z, tt) eq_refl)
              0%Z 0%Z eighty_error
              eq_refl eq_refl _ eq_refl).
    discriminate.
Defined.

(** X8. A scalar field whose variable is not set: when it is not blank it
    keeps its value; when it is blank and has a default that decodes, it
    holds the decoded default; when it is blank, has no default and is not
    required, it stays blank.  In each case the engine goes on with the next
    field. *)
Theorem scalar_without_override {L : Libraries} (os : OS) (pre : fields)
    (f : StructField) (t : ty) (rest : fields) (prefix : list string)
    (vpre vpre' : values pre) (v : value t) (vrest : values rest) :
  processFields os pre prefix vpre = (vpre', None) ->
  isScalar t = true ->
  Getenv os (envNameOf f prefix) = "" ->
  (isBlank t v = false \/ (tag_default f = "" /\ tag_required f <> "true") ->
   processFields os (fapp pre (FCons f t rest)) prefix
     (vapp pre (FCons f t rest) vpre (v, vrest)) =
   let (vrest', err) := processFields os rest prefix vrest in
   (vapp pre (FCons f t rest) vpre' (v, vrest'), err))
  /\ (forall v1 : value t,
         isBlank t v = true ->
         tag_default f <> "" ->
         yaml_Unmarshal t (tag_default f) v = (v1, None) ->
         processFields os (fapp pre (FCons f t rest)) prefix
           (vapp pre (FCons f t rest) vpre (v, vrest)) =
         let (vrest', err) := processFields os rest prefix vrest in
         (vapp pre (FCons f t rest) vpre' (v1, vrest'), err)).
Proof.
  intros Hpre Hscalar Hunset.
  assert (Hov : overrideStep os f t prefix v = (v, None)).
  { rewrite overrideStep_reads, Hunset. simpl. now rewrite orb_true_r. }
  split.
  - intros Hcase. apply processFields_continues; [exact Hpre|].
    unfold processField. rewrite Hov. unfold defaultStep.
    destruct Hcase as [Hset|[Hdef Hreq]].
    + rewrite Hset. now apply descend_scalar.
    + apply String.eqb_neq in Hreq. rewrite Hdef, Hreq. simpl.
      destruct (isBlank t v); now apply descend_scalar.
  - intros v1 Hblank Hdef Hdecode.
    apply processFields_continues; [exact Hpre|].
    unfold processField. rewrite Hov. unfold defaultStep.
    apply String.eqb_neq in Hdef. rewrite Hblank, Hdef, Hdecode. simpl.
    now apply descend_scalar.
Qed.

Lemma scalar_without_override_witness :
  processTags (L := Sample.libraries) default_process
    (TStruct (FCons level_field TInt FNil)) ["configor"] (3%Z, tt)
  = ((3%Z, tt), None)
  /\ processTags (L := Sample.libraries) default_process
       (TStruct (FCons level_field TInt FNil)) ["configor"] (0%Z, tt)
     = ((0%Z, tt), None)
  /\ processTags (L := Sample.libraries) default_process port_config
       ["configor"] (0%Z, tt)
     = ((5%Z, tt), None).
Proof.
  split; [|split].
  - refine (proj1 (scalar_without_override (L := Sample.libraries)
                     default_process FNil level_field TInt FNil ["configor"]
                     tt tt 3%Z tt eq_refl eq_refl eq_refl) _).
    left. reflexivity.
  - refine (proj1 (scalar_without_override (L := Sample.libraries)
                     default_process FNil level_field TInt FNil ["configor"]
                     tt tt 0%Z tt eq_refl eq_refl eq_refl) _).
    right. split; [reflexivity | discriminate].
  - refine (proj2 (scalar_without_override (L := Sample.libraries)
                     default_process FNil port_field TInt FNil ["configor"]
                     tt tt 0%Z tt eq_refl eq_refl eq_refl)
              5%Z eq_refl _ eq_refl).
    discriminate.
Defined.

(** X9. After the engine has returned without error, a scalar field that
    is tagged [required:"true"] and has no default is not blank. *)
Theorem required_scalar_is_set {L : Libraries} (os : OS) (pre : fields)
    (f : StructField) (t : ty) (rest : fields) (prefix : list string)
    (vpre : values pre) (v : value t) (vrest : values rest)
    (final : values (fapp pre (FCons f t rest))) :
  isScalar t = true ->
  tag_required f = "true" ->
  tag_default f = "" ->
  processFields os (fapp pre (FCons f t rest)) prefix
    (vapp pre (FCons f t rest) vpre (v, vrest)) = (final, None) ->
  exists (vpre' : values pre) (v' : value t) (vrest' : values rest),
    final = vapp pre (FCons f t rest) vpre' (v', vrest')
    /\ isBlank t v' = false.
Proof.
  intros Hscalar Hreq Hdef Hrun.
  destruct (processFields_ok_inv _ _ _ _ _ _ _ _ _ _ Hrun)
    as [vpre' [v' [vrest' [Hfinal [_ [Hfield _]]]]]].
  exists vpre', v', vrest'. split; [exact Hfinal|].
  revert Hfield. unfold processField.
  destruct (overrideStep os f t prefix v) as [v1 [e|]]; [discriminate|].
  unfold defaultStep. rewrite Hdef, Hreq. simpl.
  destruct (isBlank t v1) eqn:Hblank; [discriminate|].
  rewrite descend_scalar by exact Hscalar.
  intros H. injection H as <-. exact Hblank.
Qed.

Lemma required_scalar_is_set_witness :
  exists (vpre' : unit) (v' : Z) (vrest' : unit),
    (7%Z, tt) = vapp FNil (FCons required_port_field TInt FNil) vpre'
                  (v', vrest')
    /\ isBlank TInt v' = false.
Proof.
  apply (required_scalar_is_set (L := Sample.libraries) port_seven_process
           FNil required_port_field TInt FNil ["configor"] tt 0%Z tt
           (7%Z, tt)); reflexivity.
Defined.

(** ** The binding engine below a field *)

Lemma processElements_skipped {L : Libraries} (os : OS) (elem : ty)
    (f : StructField) (prefix : list string) (xs : list (value elem)) :
  (forall x, In x xs -> indirectIsStruct elem x = false) ->
  forall i : nat, processElements os elem f prefix i xs = (xs, None).
Proof.
  induction xs as [|x xs IH]; intros Hskip i; [reflexivity|].
  cbn [processElements]. rewrite (Hskip x (or_introl eq_refl)).
  rewrite IH; [reflexivity|].
  intros y Hy. apply Hskip. now right.
Qed.

(** X10. A slice whose elements are pointers to structs is not recursed
    into: nil elements are skipped, and the first element that is not nil
    makes the engine fail with ["invalid config, should be struct"], the
    slice being left as it was.  (The element is handed to [processTags] by
    its address, and one [reflect.Indirect] leads to the pointer, not to the
    struct.) *)
Theorem slice_of_struct_pointers {L : Libraries} (os : OS)
    (f : StructField) (efs : fields) (prefix : list string) (n : nat)
    (x : values efs) (rest : list (value (TPtr (TStruct efs)))) :
  descend os (TSlice (TPtr (TStruct efs))) f prefix (Some (repeat None n)) =
  (Some (repeat None n), None)
  /\ descend os (TSlice (TPtr (TStruct efs))) f prefix
       (Some (repeat None n ++ Some x :: rest)) =
     (Some (repeat None n ++ Some x :: rest),
      Some (ErrNew "invalid config, should be struct")).
Proof.
  assert (Hnil : forall i,
             processElements os (TPtr (TStruct efs)) f prefix i
               (repeat None n) = (repeat None n, None)).
  { apply processElements_skipped.
    intros y Hy. apply repeat_spec in Hy. now subst y. }
  split.
  - now rewrite descend_slice, Hnil.
  - rewrite descend_slice, processElements_app, Hnil. reflexivity.
Qed.

Lemma structElement_skipped (elem : ty) (x : value elem) :
  structElement elem = false -> indirectIsStruct elem x = false.
Proof.
  destruct elem as [| | | |fs|elem|elem]; try reflexivity.
  - discriminate.
  - destruct elem; try reflexivity. discriminate.
Qed.

(** X11. A slice whose elements are neither structs nor pointers to
    structs (a slice of scalars, of slices, of pointers to scalars) is not
    recursed into: whatever it holds, it is left as it is and raises no
    error, and so does the loop when the field is such a slice. *)
Theorem slice_of_scalars_kept {L : Libraries} (os : OS) (pre : fields)
    (f : StructField) (elem : ty) (rest : fields) (prefix : list string)
    (vpre vpre' : values pre) (v v1 v2 : value (TSlice elem))
    (vrest : values rest) :
  structElement elem = false ->
  descend os (TSlice elem) f prefix v = (v, None)
  /\ (processFields os pre prefix vpre = (vpre', None) ->
      overrideStep os f (TSlice elem) prefix v = (v1, None) ->
      defaultStep f (TSlice elem) v1 = (v2, None) ->
      processFields os (fapp pre (FCons f (TSlice elem) rest)) prefix
        (vapp pre (FCons f (TSlice elem) rest) vpre (v, vrest)) =
      let (vrest', err) := processFields os rest prefix vrest in
      (vapp pre (FCons f (TSlice elem) rest) vpre' (v2, vrest'), err)).
Proof.
  intros Helem.
  assert (Hkeep : forall s, descend os (TSlice elem) f prefix s = (s, None)).
  { intros [xs|]; [|reflexivity].
    rewrite descend_slice, processElements_skipped; [reflexivity|].
    intros x _. now apply structElement_skipped. }
  split; [apply Hkeep|].
  intros Hpre Hov Hdef. apply processFields_continues; [exact Hpre|].
  unfold processField. rewrite Hov, Hdef. apply Hkeep.
Qed.

Lemma slice_of_scalars_kept_witness :
  descend (L := Sample.libraries) default_process (TSlice TString) tags_field
    ["configor"] (Some ["a"; "b"]) = (Some ["a"; "b"], None)
  /\ processTags (L := Sample.libraries) default_process
       (TStruct (FCons tags_field (TSlice TString) FNil)) ["configor"]
       (Some ["a"; "b"], tt) = ((Some ["a"; "b"], tt), None).
Proof.
  pose (spec := slice_of_scalars_kept (L := Sample.libraries) default_process
                  FNil tags_field TString FNil ["configor"] tt tt
                  (Some ["a"; "b"]) (Some ["a"; "b"]) (Some ["a"; "b"]) tt
                  eq_refl).
  split; [exact (proj1 spec)|].
  exact (proj2 spec eq_refl eq_refl eq_refl).
Defined.

Lemma processElements_length {L : Libraries} (os : OS) (elem : ty)
    (f : StructField) (prefix : list string) (xs : list (value elem)) :
  forall i : nat,
    length (fst (processElements os elem f prefix i xs)) = length xs.
Proof.
  induction xs as [|x xs IH]; intros i; [reflexivity|].
  cbn [processElements].
  destruct (if indirectIsStruct elem x
            then processTags os elem (prefix ++ [Name f; Itoa i]) x
            else (x, None)) as [x' [e|]]; [reflexivity|].
  specialize (IH (S i)).
  destruct (processElements os elem f prefix (S i) xs) as [xs' err].
  simpl in *. now rewrite IH.
Qed.

(** X12. The recursion below a field keeps the shape of what it walks: a
    nil slice stays nil and a slice keeps its length, with or without an
    error; a nil pointer stays nil and a pointer that is not nil stays so.
    Elements and pointers are neither added nor dropped. *)
Theorem descend_keeps_shape {L : Libraries} (os : OS) (f : StructField)
    (elem : ty) (prefix : list string) :
  fst (descend os (TSlice elem) f prefix None) = None
  /\ (forall xs : list (value elem),
         exists xs' : list (value elem),
           fst (descend os (TSlice elem) f prefix (Some xs)) = Some xs'
           /\ length xs' = length xs)
  /\ fst (descend os (TPtr elem) f prefix None) = None
  /\ (forall x : value elem,
         exists x' : value elem,
           fst (descend os (TPtr elem) f prefix (Some x)) = Some x').
Proof.
  split; [reflexivity|]. split; [|split; [reflexivity|]].
  - intros xs. rewrite descend_slice.
    pose proof (processElements_length os elem f prefix xs 0) as Hlen.
    destruct (processElements os elem f prefix 0 xs) as [xs' err].
    exists xs'. split; [reflexivity | exact Hlen].
  - intros x. cbn [descend].
    destruct (descend os elem f prefix x) as [x' err].
    exists x'. reflexivity.
Qed.

(** X13. The engine looks through any number of pointers: a struct behind
    [n] pointers that are not nil is processed under the prefix extended by
    the field name, exactly as a struct held directly, and put back behind
    the same pointers. *)
Theorem descend_through_pointers {L : Libraries} (os : OS) (f : StructField)
    (fs : fields) (prefix : list string) (x : values fs) (n : nat) :
  descend os (TPtrs n (TStruct fs)) f prefix (boxes n (TStruct fs) x) =
  let (x', err) := processFields os fs (prefix ++ [Name f]) x in
  (boxes n (TStruct fs) x', err).
Proof.
  induction n as [|n IH].
  - simpl. destruct (processFields os fs (prefix ++ [Name f]) x); reflexivity.
  - cbn [TPtrs boxes descend]. rewrite IH.
    destruct (processFields os fs (prefix ++ [Name f]) x); reflexivity.
Qed.

(** ** The errors of Load *)

Lemma engineError_incl (names names' : list string) (e : error) :
  incl names names' -> engineError names e -> engineError names' e.
Proof.
  intros Hincl [H|[H|[name [Hin H]]]].
  - now left.
  - right. now left.
  - right. right. exists name. split; [now apply Hincl | exact H].
Qed.

Lemma overrideStep_error {L : Libraries} (os : OS) (f : StructField)
    (t : ty) (prefix : list string) (v : value t) (e : error) :
  snd (overrideStep os f t prefix v) = Some e -> exists m, e = ErrLib m.
Proof.
  rewrite overrideStep_reads.
  destruct ((envNameOf f prefix =? "")
            || (Getenv os (envNameOf f prefix) =? "")); [discriminate|].
  unfold fromLib. simpl.
  destruct (snd (yaml_Unmarshal t (Getenv os (envNameOf f prefix)) v))
    as [m|]; [|discriminate].
  intros H. injection H as <-. now exists m.
Qed.

Lemma defaultStep_error {L : Libraries} (f : StructField) (t : ty)
    (v : value t) (e : error) :
  snd (defaultStep f t v) = Some e ->
  (exists m, e = ErrLib m) \/ e = ErrNew (Name f ++ " is required, but blank").
Proof.
  unfold defaultStep.
  destruct (isBlank t v); [|discriminate].
  destruct (negb (tag_default f =? "")).
  - unfold fromLib. simpl.
    destruct (snd (yaml_Unmarshal t (tag_default f) v)) as [m|];
      [|discriminate].
    intros H. injection H as <-. left. now exists m.
  - destruct (tag_required f =? "true"); [|discriminate].
    intros H. injection H as <-. now right.
Qed.

Lemma processTags_errors {L : Libraries} (os : OS) (t : ty) :
  (forall (prefix : list string) (v : value t) (e : error),
      snd (processTags os t prefix v) = Some e ->
      engineError (fieldNames t) e)
  /\ (forall (f : StructField) (prefix : list string) (v : value t)
             (e : error),
         snd (descend os t f prefix v) = Some e ->
         engineError (fieldNames t) e).
Proof.
  assert (Hinvalid : forall names,
             engineError names (ErrNew "invalid config, should be struct")).
  { intros names. right. now left. }
  revert t.
  apply (ty_fields_ind
           (fun t =>
              (forall (prefix : list string) (v : value t) (e : error),
                  snd (processTags os t prefix v) = Some e ->
                  engineError (fieldNames t) e)
              /\ (forall (f : StructField) (prefix : list string)
                         (v : value t) (e : error),
                     snd (descend os t f prefix v) = Some e ->
                     engineError (fieldNames t) e))
           (fun fs =>
              forall (prefix : list string) (vs : values fs) (e : error),
                snd (processFields os fs prefix vs) = Some e ->
                engineError (fieldNamesOf fs) e)).
  - split; [intros prefix v e H; injection H as <-; apply Hinvalid|].
    intros f prefix v e H. discriminate H.
  - split; [intros prefix v e H; injection H as <-; apply Hinvalid|].
    intros f prefix v e H. discriminate H.
  - split; [intros prefix v e H; injection H as <-; apply Hinvalid|].
    intros f prefix v e H. discriminate H.
  - split; [intros prefix v e H; injection H as <-; apply Hinvalid|].
    intros f prefix v e H. discriminate H.
  - intros fs IHt. split.
    + intros prefix v e H. exact (IHt prefix v e H).
    + intros f prefix v e H. exact (IHt (prefix ++ [Name f]) v e H).
  - intros t [_ IHdescend]. split.
    + intros prefix v e H. injection H as <-. apply Hinvalid.
    + intros f prefix [x|] e; [|discriminate]. cbn [descend].
      specialize (IHdescend f prefix x).
      destruct (descend os t f prefix x) as [x' err]. simpl in *.
      apply IHdescend.
  - intros t [IHtags _]. split.
    + intros prefix v e H. injection H as <-. apply Hinvalid.
    + intros f prefix [xs|] e; [|discriminate]. rewrite descend_slice.
      assert (Hloop : forall i,
                 snd (processElements os t f prefix i xs) = Some e ->
                 engineError (fieldNames t) e).
      { induction xs as [|x xs IHxs]; intros i; [discriminate|].
        cbn [processElements].
        destruct (indirectIsStruct t x).
        - specialize (IHtags (prefix ++ [Name f; Itoa i]) x).
          destruct (processTags os t (prefix ++ [Name f; Itoa i]) x)
            as [x' [e'|]]; simpl in *.
          + intros H. apply IHtags. exact H.
          + specialize (IHxs (S i)).
            destruct (processElements os t f prefix (S i) xs) as [xs' err].
            exact IHxs.
        - specialize (IHxs (S i)).
          destruct (processElements os t f prefix (S i) xs) as [xs' err].
          exact IHxs. }
      specialize (Hloop 0).
      destruct (processElements os t f prefix 0 xs) as [xs' err].
      exact Hloop.
  - intros prefix vs e H. discriminate H.
  - intros f t [_ IHdescend] t0 IHt0.
    intros prefix [v vs] e. rewrite processFields_cons. unfold processField.
    pose proof (overrideStep_error os f t prefix v) as Hov.
    destruct (overrideStep os f t prefix v) as [v1 [e1|]].
    { intros H. injection H as <-. left. exact (Hov e1 eq_refl). }
    pose proof (defaultStep_error f t v1) as Hdef.
    destruct (defaultStep f t v1) as [v2 [e2|]].
    { intros H. injection H as <-.
      destruct (Hdef e2 eq_refl) as [Hlib| ->]; [now left|].
      right. right. exists (Name f). split; [now left | reflexivity]. }
    specialize (IHdescend f prefix v2).
    destruct (descend os t f prefix v2) as [v3 [e3|]].
    { intros H. injection H as <-. simpl in IHdescend.
      apply engineError_incl with (names := fieldNames t);
        [|now apply IHdescend].
      intros name Hn. simpl. right. apply in_or_app. now left. }
    specialize (IHt0 prefix vs).
    destruct (processFields os t0 prefix vs) as [vs' err]. simpl in *.
    intros H. apply engineError_incl with (names := fieldNamesOf t0);
      [|now apply IHt0].
    intros name Hn. right. apply in_or_app. now right.
Qed.

Lemma getConfigurations_loop_error (os : OS) (env : string)
    (files : list string) :
  forall (results : list string) (err : error),
    getConfigurations_loop os env files results = inr err ->
    exists file : string, In file files /\ err = notFound file.
Proof.
  induction files as [|f files IH]; intros results err; simpl;
    [discriminate|].
  destruct (getConfigurations_body os env f results) as [results'|e] eqn:E.
  - intros H. destruct (IH _ _ H) as [file [Hin Herr]].
    exists file. split; [now right | exact Herr].
  - intros H. injection H as <-.
    apply getConfigurations_body_error in E. destruct E as [-> _].
    exists f. split; [now left | reflexivity].
Qed.

Lemma load_error {L : Libraries} (t : ty) (os : OS) (config : value t)
    (file : string) (e : error) :
  snd (load t os config file) = Some e ->
  (exists m, e = ErrLib m) \/ e = ErrNew "failed to decode config".
Proof.
  assert (Hlib : forall r : value t * option string,
             snd (fromLib r) = Some e -> exists m, e = ErrLib m).
  { intros [c [m|]]; [|discriminate]. intros H. injection H as <-.
    now exists m. }
  unfold load. destruct (ReadFile os file) as [data|m].
  - destruct (HasSuffix file ".yaml" || HasSuffix file ".yml");
      [intros H; left; exact (Hlib _ H)|].
    destruct (HasSuffix file ".toml"); [intros H; left; exact (Hlib _ H)|].
    destruct (HasSuffix file ".json"); [intros H; left; exact (Hlib _ H)|].
    destruct (toml_Unmarshal t data config) as [c1 [e1|]]; [|discriminate].
    destruct (json_Unmarshal t data c1) as [c2 [e2|]]; [|discriminate].
    destruct (yaml_Unmarshal t data c2) as [c3 [e3|]]; [|discriminate].
    intros H. injection H as <-. now right.
  - intros H. injection H as <-. left. now exists m.
Qed.

Lemma loadFiles_error {L : Libraries} (t : ty) (os : OS)
    (files : list string) :
  forall (config : value t) (read : list string) (e : error),
    snd (loadFiles t os config files read) = Some e ->
    (exists m, e = ErrLib m) \/ e = ErrNew "failed to decode config".
Proof.
  induction files as [|file files IH]; intros config read e; simpl;
    [discriminate|].
  pose proof (load_error t os config file) as Hload.
  destruct (load t os config file) as [config' [e'|]].
  - intros H. injection H as <-. exact (Hload e' eq_refl).
  - apply IH.
Qed.

(** X14. Every error that [Load] returns is one of five: the
    file-not-found error for one of the references it was given; an error
    handed back by a library (reading a file, or decoding a file, an
    override or a default); ["failed to decode config"]; ["invalid config,
    should be struct"]; or the required error for a field name of the
    configuration type. *)
Theorem Load_errors {L : Libraries} (t : ty) (os : OS) (config : value t)
    (files : list string) (e : error) :
  failure (Load t os config files) = Some e ->
  (exists file : string,
      In file files
      /\ e = ErrNew ("Failed to find configuration " ++ file ++ LF))
  \/ (exists m : string, e = ErrLib m)
  \/ e = ErrNew "failed to decode config"
  \/ e = ErrNew "invalid config, should be struct"
  \/ (exists name : string,
         In name (fieldNames t)
         /\ e = ErrNew (name ++ " is required, but blank")).
Proof.
  unfold Load, getConfigurations.
  destruct (getConfigurations_loop os (ENV os) (rev files) [])
    as [paths|err] eqn:Epaths.
  - pose proof (loadFiles_error t os paths config [] e) as Hfiles.
    destruct (loadFiles t os config paths []) as [[merged read] [e'|]].
    + simpl. intros H.
      destruct (Hfiles H) as [Hlib|Hdecode];
        [right; now left | right; right; now left].
    + assert (Hengine : forall prefix,
                 snd (processTags os t prefix merged) = Some e ->
                 engineError (fieldNames t) e).
      { intros prefix. apply processTags_errors. }
      assert (Hcases : engineError (fieldNames t) e ->
                (exists file : string,
                    In file files
                    /\ e = ErrNew ("Failed to find configuration "
                                   ++ file ++ LF))
                \/ (exists m : string, e = ErrLib m)
                \/ e = ErrNew "failed to decode config"
                \/ e = ErrNew "invalid config, should be struct"
                \/ (exists name : string,
                       In name (fieldNames t)
                       /\ e = ErrNew (name ++ " is required, but blank"))).
      { intros [H|[H|H]]; [right; now left | do 3 right; now left|].
        do 4 right. exact H. }
      destruct (getPrefix os =? "-").
      * specialize (Hengine []).
        destruct (processTags os t [] merged) as [config' err].
        simpl in *. intros H. auto.
      * specialize (Hengine [getPrefix os]).
        destruct (processTags os t [getPrefix os] merged) as [config' err].
        simpl in *. intros H. auto.
  - simpl. intros H. injection H as <-.
    destruct (getConfigurations_loop_error _ _ _ _ _ Epaths)
      as [file [Hin Herr]].
    left. exists file. split; [now apply in_rev | exact Herr].
Qed.

Lemma Load_errors_witness :
  (exists file : string,
      In file ["a.yml"]
      /\ ErrNew "Name is required, but blank"
         = ErrNew ("Failed to find configuration " ++ file ++ LF))
  \/ (exists m : string, ErrNew "Name is required, but blank" = ErrLib m)
  \/ ErrNew "Name is required, but blank" = ErrNew "failed to decode config"
  \/ ErrNew "Name is required, but blank"
     = ErrNew "invalid config, should be struct"
  \/ (exists name : string,
         In name (fieldNames named_config)
         /\ ErrNew "Name is required, but blank"
            = ErrNew (name ++ " is required, but blank")).
Proof.
  apply (Load_errors (L := Sample.libraries) named_config two_files_process
           ("", (0%Z, tt)) ["a.yml"]).
  reflexivity.
Defined.

(** ** Configurations without tags *)

Lemma processFields_untagged {L : Libraries} (os : OS) (t : ty) :
  (forall (f : StructField) (prefix : list string) (v : value t),
      untagged t = true ->
      (forall k : string, consults t f prefix k -> Getenv os k = "") ->
      descend os t f prefix v = (v, None))
  /\ match t with
     | TStruct fs =>
         forall (prefix : list string) (vs : values fs),
           untaggedFields fs = true ->
           (forall k : string, consultsFields fs prefix k ->
                               Getenv os k = "") ->
           processFields os fs prefix vs = (vs, None)
     | _ => True
     end.
Proof.
  revert t.
  apply (ty_fields_ind
           (fun t =>
              (forall (f : StructField) (prefix : list string) (v : value t),
                  untagged t = true ->
                  (forall k : string, consults t f prefix k ->
                                      Getenv os k = "") ->
                  descend os t f prefix v = (v, None))
              /\ match t with
                 | TStruct fs =>
                     forall (prefix : list string) (vs : values fs),
                       untaggedFields fs = true ->
                       (forall k : string, consultsFields fs prefix k ->
                                           Getenv os k = "") ->
                       processFields os fs prefix vs = (vs, None)
                 | _ => True
                 end)
           (fun fs =>
              forall (prefix : list string) (vs : values fs),
                untaggedFields fs = true ->
                (forall k : string, consultsFields fs prefix k ->
                                    Getenv os k = "") ->
                processFields os fs prefix vs = (vs, None))).
  - split; [reflexivity | exact I].
  - split; [reflexivity | exact I].
  - split; [reflexivity | exact I].
  - split; [reflexivity | exact I].
  - intros fs IH. split; [|exact IH].
    intros f prefix v Htags Henv. exact (IH _ v Htags Henv).
  - intros elem [IH _]. split; [|exact I].
    intros f prefix [x|] Htags Henv; [|reflexivity].
    cbn [descend]. now rewrite (IH f prefix x Htags Henv).
  - intros elem [_ IH]. split; [|exact I].
    intros f prefix [xs|] Htags Henv; [|reflexivity].
    rewrite descend_slice.
    enough (Hloop : forall i, processElements os elem f prefix i xs
                              = (xs, None)) by now rewrite Hloop.
    destruct elem as [| | | |efs|inner|inner].
    + apply processElements_skipped. reflexivity.
    + apply processElements_skipped. reflexivity.
    + apply processElements_skipped. reflexivity.
    + apply processElements_skipped. reflexivity.
    + induction xs as [|x xs IHxs]; intros i; [reflexivity|].
      cbn [processElements indirectIsStruct].
      rewrite processTags_struct, IH, IHxs; [reflexivity | exact Htags|].
      intros k Hk. apply Henv. now exists i.
    + apply processElements_skipped. intros x _.
      destruct inner; try reflexivity. discriminate Htags.
    + apply processElements_skipped. reflexivity.
  - reflexivity.
  - intros f t [IHt _] rest IHrest prefix [v vs] Htags Henv.
    cbn [untaggedFields] in Htags.
    apply andb_true_iff in Htags. destruct Htags as [Htags Hrest].
    apply andb_true_iff in Htags. destruct Htags as [Htags Ht].
    apply andb_true_iff in Htags. destruct Htags as [Hdef Hreq].
    apply negb_true_iff in Hreq.
    rewrite processFields_cons.
    assert (Hfield : processField os f t prefix v = (v, None)).
    { unfold processField. rewrite overrideStep_reads.
      rewrite (Henv (envNameOf f prefix)) by now left.
      rewrite orb_true_r. unfold defaultStep. rewrite Hdef, Hreq. simpl.
      assert (Hd : descend os t f prefix v = (v, None)).
      { apply IHt; [exact Ht|]. intros k Hk. apply Henv. right. now left. }
      destruct (isBlank t v); exact Hd. }
    rewrite Hfield, IHrest; [reflexivity | exact Hrest|].
    intros k Hk. apply Henv. right. now right.
Qed.

(** X15. A configuration whose fields carry neither a default nor
    [required:"true"] (and that holds no slice of pointers to structs), in a
    process where none of the variables derived from its fields is set, is
    left by [Load] exactly as the files made it, without error. *)
Theorem Load_without_tags {L : Libraries} (fs : fields) (os : OS)
    (config merged : values fs) (files paths read : list string) :
  untaggedFields fs = true ->
  (forall k : string,
      consultsFields fs (initialPrefix os) k -> Getenv os k = "") ->
  getConfigurations os files = inl paths ->
  loadFiles (TStruct fs) os config paths [] = (merged, read, None) ->
  Load (TStruct fs) os config files =
  mkLoadResult (TStruct fs) merged read None.
Proof.
  intros Htags Henv Hpaths Hfiles.
  rewrite (Load_after_files (TStruct fs) os config files paths read merged
             Hpaths Hfiles).
  rewrite processTags_struct.
  now rewrite (proj2 (processFields_untagged os (TStruct fs))
                 (initialPrefix os) merged Htags Henv).
Qed.

Lemma Load_without_tags_witness :
  Load (L := Sample.libraries) level_config level_process (3%Z, tt) ["a.yml"]
  = mkLoadResult level_config (3%Z, tt) ["a.yml"] None.
Proof.
  apply (Load_without_tags (L := Sample.libraries)
           (FCons level_field TInt FNil) level_process (3%Z, tt) (3%Z, tt)
           ["a.yml"] ["a.yml"] ["a.yml"]); try reflexivity.
  intros k [-> | [[] | []]]. reflexivity.
Defined.

(** ** Save *)

Lemma json_is_not_toml (file : string) :
  HasSuffix file ".json" = true -> HasSuffix file ".toml" = false.
Proof.
  unfold HasSuffix. simpl String.length.
  destruct (Nat.leb 5 (String.length file)); [|discriminate]. simpl.
  rewrite String.eqb_eq. intros ->. reflexivity.
Qed.

(** X16. [Save] and [load] agree on the format of a file name.  When
    [Save] has written a file without error, the bytes are those of the YAML
    encoder for a name in [.yaml] or [.yml] and of the JSON encoder for a
    name in [.json], and [load] hands the same file to the decoder of the
    same format; so whatever that decoder makes of the encoder's bytes is
    what [load] returns. *)
Theorem Save_then_load {L : Libraries} (t : ty) (os os' : OS)
    (saved config : value t) (filename js : string) :
  Save t os saved filename = ([(filename, js)], None) ->
  ReadFile os' filename = inl js ->
  ((HasSuffix filename ".yaml" || HasSuffix filename ".yml" = true
    /\ yaml_Marshal t saved = (js, None)
    /\ load t os' config filename = fromLib (yaml_Unmarshal t js config))
   \/ (HasSuffix filename ".yaml" || HasSuffix filename ".yml" = false
       /\ HasSuffix filename ".json" = true
       /\ json_Marshal t saved = (js, None)
       /\ load t os' config filename = fromLib (json_Unmarshal t js config)))
  /\ (forall decoded : value t,
         (HasSuffix filename ".yaml" || HasSuffix filename ".yml" = true ->
          yaml_Unmarshal t js config = (decoded, None)) ->
         (HasSuffix filename ".yaml" || HasSuffix filename ".yml" = false ->
          json_Unmarshal t js config = (decoded, None)) ->
         load t os' config filename = (decoded, None)).
Proof.
  unfold Save, load. intros Hsave Hread. rewrite Hread.
  destruct (HasSuffix filename ".yaml" || HasSuffix filename ".yml").
  - destruct (yaml_Marshal t saved) as [js' [e|]]; [discriminate|].
    injection Hsave as <- _. split.
    + left. repeat split.
    + intros decoded Hyaml _. now rewrite (Hyaml eq_refl).
  - destruct (HasSuffix filename ".json") eqn:Hjson; [|discriminate].
    rewrite (json_is_not_toml filename Hjson).
    destruct (json_Marshal t saved) as [js' [e|]]; [discriminate|].
    injection Hsave as <- _. split.
    + right. repeat split.
    + intros decoded _ Hjs. now rewrite (Hjs eq_refl).
Qed.

Lemma Save_then_load_witness :
  load (L := Sample.libraries) TInt saved_yaml_process 0%Z "n.yml"
  = (5%Z, None)
  /\ load (L := Sample.libraries) (TStruct FNil) saved_json_process tt "e.json"
     = (tt, None).
Proof.
  split.
  - apply (proj2 (Save_then_load (L := Sample.libraries) TInt default_process
                    saved_yaml_process 5%Z 0%Z "n.yml" ("5" ++ LF)%string
                    eq_refl eq_refl)).
    + reflexivity.
    + discriminate.
  - apply (proj2 (Save_then_load (L := Sample.libraries) (TStruct FNil)
                    default_process saved_json_process tt tt "e.json" "{}"
                    eq_refl eq_refl)).
    + discriminate.
    + reflexivity.
Defined.

(** X17. [Save] asks for one write at most, to the file name it was given
    and with bytes that an encoder returned without error; the only errors
    it returns are ["Unknown file type"], with nothing written, and the
    error of that write. *)
Theorem Save_writes {L : Libraries} (t : ty) (os : OS) (config : value t)
    (filename : string) :
  (fst (Save t os config filename) = []
   \/ exists js : string,
       fst (Save t os config filename) = [(filename, js)]
       /\ (yaml_Marshal t config = (js, None)
           \/ json_Marshal t config = (js, None)))
  /\ (forall e : error,
         snd (Save t os config filename) = Some e ->
         (e = ErrNew "Unknown file type"
          /\ fst (Save t os config filename) = [])
         \/ exists (m js : string),
             e = ErrLib m
             /\ WriteFile os filename js = Some m
             /\ fst (Save t os config filename) = [(filename, js)]).
Proof.
  unfold Save.
  destruct (HasSuffix filename ".yaml" || HasSuffix filename ".yml").
  - destruct (yaml_Marshal t config) as [js [e'|]]; simpl.
    + split; [now left | discriminate].
    + split; [right; exists js; split; [reflexivity | now left]|].
      intros e He. right.
      destruct (WriteFile os filename js) as [m|] eqn:Hw; [|discriminate].
      injection He as <-. exists m, js. repeat split. exact Hw.
  - destruct (HasSuffix filename ".json").
    + destruct (json_Marshal t config) as [js [e'|]]; simpl.
      * split; [now left | discriminate].
      * split; [right; exists js; split; [reflexivity | now right]|].
        intros e He. right.
        destruct (WriteFile os filename js) as [m|] eqn:Hw; [|discriminate].
        injection He as <-. exists m, js. repeat split. exact Hw.
    + simpl. split; [now left|].
      intros e He. injection He as <-. left. split; reflexivity.
Qed.

Lemma Save_writes_witness :
  (ErrLib "permission denied" = ErrNew "Unknown file type"
   /\ fst (Save (L := Sample.libraries) port_config read_only_process
             (5%Z, tt) "config.json") = [])
  \/ exists (m js : string),
      ErrLib "permission denied" = ErrLib m
      /\ WriteFile read_only_process "config.json" js = Some m
      /\ fst (Save (L := Sample.libraries) port_config read_only_process
                (5%Z, tt) "config.json") = [("config.json", js)].
Proof.
  apply (proj2 (Save_writes (L := Sample.libraries) port_config
                  read_only_process (5%Z, tt) "config.json")).
  reflexivity.
Defined.

(** ** The variables the engine depends on *)

Lemma processTags_reads {L : Libraries} (os os' : OS) (t : ty) :
  (forall (f : StructField) (prefix : list string) (v : value t),
      (forall k : string, consults t f prefix k ->
                          Getenv os k = Getenv os' k) ->
      descend os t f prefix v = descend os' t f prefix v)
  /\ match t with
     | TStruct fs =>
         forall (prefix : list string) (vs : values fs),
           (forall k : string, consultsFields fs prefix k ->
                               Getenv os k = Getenv os' k) ->
           processFields os fs prefix vs = processFields os' fs prefix vs
     | _ => True
     end.
Proof.
  revert t.
  apply (ty_fields_ind
           (fun t =>
              (forall (f : StructField) (prefix : list string) (v : value t),
                  (forall k : string, consults t f prefix k ->
                                      Getenv os k = Getenv os' k) ->
                  descend os t f prefix v = descend os' t f prefix v)
              /\ match t with
                 | TStruct fs =>
                     forall (prefix : list string) (vs : values fs),
                       (forall k : string, consultsFields fs prefix k ->
                                           Getenv os k = Getenv os' k) ->
                       processFields os fs prefix vs
                       = processFields os' fs prefix vs
                 | _ => True
                 end)
           (fun fs =>
              forall (prefix : list string) (vs : values fs),
                (forall k : string, consultsFields fs prefix k ->
                                    Getenv os k = Getenv os' k) ->
                processFields os fs prefix vs = processFields os' fs prefix vs)).
  - split; [reflexivity | exact I].
  - split; [reflexivity | exact I].
  - split; [reflexivity | exact I].
  - split; [reflexivity | exact I].
  - intros fs IH. split; [|exact IH].
    intros f prefix v Henv. exact (IH _ v Henv).
  - intros elem [IH _]. split; [|exact I].
    intros f prefix [x|] Henv; [|reflexivity].
    cbn [descend]. now rewrite (IH f prefix x Henv).
  - intros elem [_ IH]. split; [|exact I].
    intros f prefix [xs|] Henv; [|reflexivity].
    rewrite !descend_slice.
    enough (Hloop : forall i, processElements os elem f prefix i xs
                              = processElements os' elem f prefix i xs)
      by now rewrite Hloop.
    induction xs as [|x xs IHxs]; intros i; [reflexivity|].
    cbn [processElements]. rewrite IHxs.
    destruct (indirectIsStruct elem x); [|reflexivity].
    destruct elem as [| | | |efs|inner|inner]; try reflexivity.
    rewrite !processTags_struct, IH; [reflexivity|].
    intros k Hk. apply Henv. now exists i.
  - reflexivity.
  - intros f t [IHt _] rest IHrest prefix [v vs] Henv.
    rewrite !processFields_cons.
    assert (Hfield : processField os f t prefix v
                     = processField os' f t prefix v).
    { unfold processField. rewrite !overrideStep_reads.
      rewrite (Henv (envNameOf f prefix)) by now left.
      destruct (if (envNameOf f prefix =? "")
                   || (Getenv os' (envNameOf f prefix) =? "")
                then (v, None)
                else fromLib (yaml_Unmarshal t
                                (Getenv os' (envNameOf f prefix)) v))
        as [v1 [e1|]]; [reflexivity|].
      destruct (defaultStep f t v1) as [v2 [e2|]]; [reflexivity|].
      apply IHt. intros k Hk. apply Henv. right. now left. }
    rewrite Hfield, IHrest; [reflexivity|].
    intros k Hk. apply Henv. right. now right.
Qed.

(** X18. The binding engine depends on the process through the variables
    derived from the fields alone: the [env] tag or derived name of each
    field it reaches, at every depth and for every index of a slice of
    structs.  Two processes that agree on those variables give the same
    configuration and the same error; no other variable, file or argument
    has any influence. *)
Theorem processTags_depends_on {L : Libraries} (os os' : OS) (fs : fields)
    (prefix : list string) (config : values fs) :
  (forall k : string,
      consultsFields fs prefix k -> Getenv os k = Getenv os' k) ->
  processTags os (TStruct fs) prefix config
  = processTags os' (TStruct fs) prefix config.
Proof.
  intros Henv. rewrite !processTags_struct.
  exact (proj2 (processTags_reads os os' (TStruct fs)) prefix config Henv).
Qed.

Lemma processTags_depends_on_witness :
  processTags (L := Sample.libraries) port_seven_process port_config
    ["configor"] (0%Z, tt)
  = processTags (L := Sample.libraries) port_seven_verbose_process port_config
      ["configor"] (0%Z, tt).
Proof.
  apply (processTags_depends_on (L := Sample.libraries) port_seven_process
           port_seven_verbose_process (FCons port_field TInt FNil)
           ["configor"] (0%Z, tt)).
  intros k [-> | [[] | []]]. reflexivity.
Defined.
